(** * Employee benefits survey: design generator and preference engine

    A shallow embedding of [survey_design_code.py] (class
    [ConjointSurveyDesigner]) and [survey_analysis_app.py] (class
    [ConjointAnalyzer]), with the properties of the written specification
    stated against it.

    Conventions of the embedding.
    - A Python [int] is a [Z]; a Python [str] is the list of its Unicode
      code points ([str]), so that [chr] is total on its legal range.
    - An exception is a value of [exn]; a call that may raise returns a
      [result].
    - The module-level pseudo-random generator used by [random.sample] is an
      explicit stream of raw draws ([Rng]) threaded through the generator by
      the monad [M].
    - A pandas float cell is a [float]: an exact real, an infinity or NaN,
      with the IEEE rules for division by zero and for NaN; rounding is not
      modelled. *)

From Stdlib Require Import Ascii String.
From Stdlib Require Import List ZArith Lia Bool Arith PeanoNat.
From Stdlib Require Import ListSet Permutation FinFun.
From Stdlib Require Import Reals Lra.
Import ListNotations.

Local Open Scope Z_scope.

(* ------------------------------------------------------------------ *)
(** ** Strings, exceptions, results *)

Definition str : Type := list N.

Definition str_eq_dec : forall a b : str, {a = b} + {a <> b} :=
  list_eq_dec N.eq_dec.

Definition str_eqb (a b : str) : bool :=
  if str_eq_dec a b then true else false.

(** A literal: the code points of an ASCII string. *)
Definition py (s : string) : str := map N_of_ascii (list_ascii_of_string s).

Inductive exn : Type :=
| ValueError
| IndexError
| KeyError
| AttributeError
| ImportError
| LibraryError (name : string).

Inductive result (A : Type) : Type :=
| Ok (a : A)
| Raise (e : exn).

Arguments Ok {A} a.
Arguments Raise {A} e.

(** [chr(i)]: the one-character string of code point [i]; [ValueError]
    outside [range(0x110000)]. *)
Definition chr (i : Z) : result str :=
  if (0 <=? i) && (i <? 1114112) then Ok [Z.to_N i] else Raise ValueError.

(** [range(lo, hi)]. *)
Definition py_range (lo hi : Z) : list Z :=
  map (fun i => lo + Z.of_nat i) (seq 0 (Z.to_nat (hi - lo))).

Definition len {A : Type} (l : list A) : Z := Z.of_nat (length l).

(* ------------------------------------------------------------------ *)
(** ** The generator monad: random state and exceptions *)

Definition Rng : Type := list nat.

Definition M (A : Type) : Type := Rng -> result (A * Rng).

Definition ret {A : Type} (a : A) : M A := fun rng => Ok (a, rng).

Definition bind {A B : Type} (m : M A) (f : A -> M B) : M B :=
  fun rng =>
    match m rng with
    | Ok (a, rng') => f a rng'
    | Raise e => Raise e
    end.

Definition raise {A : Type} (e : exn) : M A := fun _ => Raise e.

Definition lift {A : Type} (r : result A) : M A :=
  fun rng => match r with Ok a => Ok (a, rng) | Raise e => Raise e end.

Declare Scope gen_scope.
Delimit Scope gen_scope with gen.
Notation "x <- m ;; k" := (bind m (fun x => k))
  (at level 61, m at next level, right associativity) : gen_scope.
Local Open Scope gen_scope.

(** [for x in xs: acc.append(f(x))]. *)
Fixpoint for_each {A B : Type} (xs : list A) (f : A -> M B) : M (list B) :=
  match xs with
  | [] => ret []
  | x :: xs' => y <- f x ;; ys <- for_each xs' f ;; ret (y :: ys)
  end.

(* ------------------------------------------------------------------ *)
(** ** [random.sample]

    The library's selection loop for a population kept as a pool: draw a
    position below the number of items still unselected, take the item
    there, and move the last unselected item into the vacancy.  (For large
    populations the library draws positions by rejection instead, with the
    same distribution.) *)

Section Sample.
Variable A : Type.

(** [_randbelow(n)]: the next raw draw, reduced below [n]. *)
Definition randbelow (n : nat) : M nat :=
  fun rng =>
    match rng with
    | [] => Ok (0%nat, [])
    | r :: rng' => Ok ((r mod n)%nat, rng')
    end.

Fixpoint list_set (j : nat) (v : A) (l : list A) : list A :=
  match l, j with
  | [], _ => []
  | _ :: t, O => v :: t
  | h :: t, S j' => h :: list_set j' v t
  end.

(** One pass of the loop body on the live part of the pool:
    [result[i] = pool[j]; pool[j] = pool[n - i - 1]]. *)
Definition pool_take (j : nat) (pool : list A) : option (A * list A) :=
  match nth_error pool j, nth_error pool (length pool - 1) with
  | Some x, Some l => Some (x, firstn (length pool - 1) (list_set j l pool))
  | _, _ => None
  end.

Fixpoint sample_loop (k : nat) (pool : list A) : M (list A) :=
  match k with
  | O => ret []
  | S k' =>
      j <- randbelow (length pool) ;;
      match pool_take j pool with
      | Some (x, pool') => rest <- sample_loop k' pool' ;; ret (x :: rest)
      | None => raise IndexError
      end
  end.

Definition random_sample (population : list A) (k : Z) : M (list A) :=
  if (k <? 0) || (len population <? k) then raise ValueError
  else sample_loop (Z.to_nat k) population.
End Sample.

Arguments list_set {A} j v l.
Arguments pool_take {A} j pool.
Arguments sample_loop {A} k pool.
Arguments random_sample {A} population k.

(* ------------------------------------------------------------------ *)
(** ** Survey design engine ([ConjointSurveyDesigner]) *)

Record ConjointSurveyDesigner : Type := mkDesigner {
  benefits : list str;
  n_alternatives : Z;
  n_questions : Z;
  items_per_alternative : Z
}.

Record Alternative : Type := mkAlternative {
  alternative_id : str;
  alt_benefits : list str
}.

Record Question : Type := mkQuestion {
  q_question_id : Z;
  alternatives : list Alternative
}.

Record Survey : Type := mkSurvey {
  s_respondent_id : Z;
  questions : list Question
}.

(** [used_benefits.update(bundle)] on a Python set. *)
Definition set_update (used : set str) (bundle : list str) : set str :=
  fold_left (fun s b => set_add str_eq_dec b s) bundle used.

(** The list comprehension of [generate_random_bundle]. *)
Definition available_of (d : ConjointSurveyDesigner) (exclude : set str) : list str :=
  filter (fun b => negb (set_mem str_eq_dec b exclude)) (benefits d).

(** The population the bundle is finally drawn from: [available], or the
    whole catalog when [available] is too short. *)
Definition draw_pool (d : ConjointSurveyDesigner) (exclude : set str) : list str :=
  let available := available_of d exclude in
  if len available <? items_per_alternative d then benefits d else available.

Definition generate_random_bundle (d : ConjointSurveyDesigner)
    (exclude_benefits : set str) : M (list str) :=
  let available := draw_pool d exclude_benefits in
  random_sample available (Z.min (items_per_alternative d) (len available)).

Fixpoint question_loop (d : ConjointSurveyDesigner) (alt_ids : list Z)
    (alts : list Alternative) (used_benefits : set str) : M (list Alternative) :=
  match alt_ids with
  | [] => ret alts
  | alt_id :: rest =>
      bundle <- generate_random_bundle d used_benefits ;;
      label <- lift (chr (65 + alt_id)) ;;
      question_loop d rest (alts ++ [mkAlternative label bundle])
                    (set_update used_benefits bundle)
  end.

Definition generate_question (d : ConjointSurveyDesigner) (question_id : Z)
    : M Question :=
  alts <- question_loop d (py_range 0 (n_alternatives d)) [] (empty_set str) ;;
  ret (mkQuestion question_id alts).

Definition generate_survey (d : ConjointSurveyDesigner) (n_respondents : Z)
    : M (list Survey) :=
  for_each (py_range 1 (n_respondents + 1)) (fun resp_id =>
    qs <- for_each (py_range 1 (n_questions d + 1)) (generate_question d) ;;
    ret (mkSurvey resp_id qs)).

(** A table cell holding text: [None] is a missing value (NaN). *)
Definition cell : Type := option str.

Record DesignRow : Type := mkDesignRow {
  respondent_id : Z;
  question_id : Z;
  alternative : cell;
  benefit_cells : list cell      (* columns benefit_1, benefit_2, ... *)
}.

(** The dict comprehension of [export_to_csv]: column [benefit_{i+1}] holds
    [alt['benefits'][i]] when there is one and [''] otherwise. *)
Definition benefit_cols_of (d : ConjointSurveyDesigner) (alt : Alternative)
    : list cell :=
  map (fun i => match nth_error (alt_benefits alt) (Z.to_nat i) with
                | Some b => Some b
                | None => Some []
                end)
      (py_range 0 (items_per_alternative d)).

Definition export_to_csv (d : ConjointSurveyDesigner) (surveys : list Survey)
    : list DesignRow :=
  flat_map (fun survey =>
    flat_map (fun question =>
      map (fun alt =>
             mkDesignRow (s_respondent_id survey) (q_question_id question)
                         (Some (alternative_id alt)) (benefit_cols_of d alt))
          (alternatives question))
      (questions survey))
    surveys.

(** [generate_question] with a record, per alternative, of whether the
    fallback branch ([available = self.benefits.copy()]) was taken.  The
    record is not part of the program: [generate_question_log_erase]
    relates the two. *)
Definition fallback_taken (d : ConjointSurveyDesigner) (exclude : set str) : bool :=
  len (available_of d exclude) <? items_per_alternative d.

Fixpoint question_loop_log (d : ConjointSurveyDesigner) (alt_ids : list Z)
    (alts : list Alternative) (used_benefits : set str) (log : list bool)
    : M (list Alternative * list bool) :=
  match alt_ids with
  | [] => ret (alts, log)
  | alt_id :: rest =>
      bundle <- generate_random_bundle d used_benefits ;;
      label <- lift (chr (65 + alt_id)) ;;
      question_loop_log d rest (alts ++ [mkAlternative label bundle])
                        (set_update used_benefits bundle)
                        (log ++ [fallback_taken d used_benefits])
  end.

Definition generate_question_log (d : ConjointSurveyDesigner) (question_id : Z)
    : M (Question * list bool) :=
  r <- question_loop_log d (py_range 0 (n_alternatives d)) [] (empty_set str) [] ;;
  ret (mkQuestion question_id (fst r), snd r).


(** The shape of a generated design: labels are the letters from ['A'] on
    in order, bundles are no longer than asked, identifiers count from 1. *)
Definition alternative_ok (d : ConjointSurveyDesigner) (alt_id : Z)
    (alt : Alternative) : Prop :=
  chr (65 + alt_id) = Ok (alternative_id alt) /\
  (length (alt_benefits alt) <= Z.to_nat (items_per_alternative d))%nat.

Definition question_ok (d : ConjointSurveyDesigner) (qid : Z) (q : Question) : Prop :=
  q_question_id q = qid /\
  Forall2 (alternative_ok d) (py_range 0 (n_alternatives d)) (alternatives q).

Definition survey_ok (d : ConjointSurveyDesigner) (rid : Z) (s : Survey) : Prop :=
  s_respondent_id s = rid /\
  Forall2 (question_ok d) (py_range 1 (n_questions d + 1)) (questions s).

Definition design_ok (d : ConjointSurveyDesigner) (n_respondents : Z)
    (surveys : list Survey) : Prop :=
  Forall2 (survey_ok d) (py_range 1 (n_respondents + 1)) surveys.



(** A run on the catalog A, B, C, D of the specification's scenario. *)
Definition catalog4 : list str := [py "A"; py "B"; py "C"; py "D"].
Definition designer4 : ConjointSurveyDesigner := mkDesigner catalog4 2 1 2.


(* ------------------------------------------------------------------ *)
(** ** Float cells

    A value of a float column: an exact real, an infinity, or NaN.
    Arithmetic is exact on reals and follows IEEE 754 on the special
    values: [x / 0] is an infinity for [x <> 0], [0 / 0] is NaN, and NaN
    propagates.  Rounding and the sign of zero are not modelled. *)

Local Open Scope R_scope.

Inductive float : Type :=
| Fin (r : R)
| PInf
| NInf
| NaN.

Definition of_Z (z : Z) : float := Fin (IZR z).

Definition is_nan (x : float) : bool :=
  match x with NaN => true | _ => false end.

Definition notna (x : float) : bool := negb (is_nan x).

Definition fneg (x : float) : float :=
  match x with
  | Fin r => Fin (- r)
  | PInf => NInf
  | NInf => PInf
  | NaN => NaN
  end.

Definition fadd (x y : float) : float :=
  match x, y with
  | NaN, _ | _, NaN => NaN
  | Fin a, Fin b => Fin (a + b)
  | PInf, NInf | NInf, PInf => NaN
  | PInf, _ | _, PInf => PInf
  | NInf, _ | _, NInf => NInf
  end.

Definition fsub (x y : float) : float := fadd x (fneg y).

(** The sign of a real: [Some true] positive, [Some false] negative,
    [None] zero. *)
Definition sign_of (r : R) : option bool :=
  if Req_dec_T r 0 then None
  else if Rlt_dec 0 r then Some true else Some false.

Definition inf_of_sign (positive : bool) : float :=
  if positive then PInf else NInf.

Definition fsign (x : float) : option (option bool) :=
  match x with
  | NaN => None
  | PInf => Some (Some true)
  | NInf => Some (Some false)
  | Fin r => Some (sign_of r)
  end.

Definition fmul (x y : float) : float :=
  match x, y with
  | NaN, _ | _, NaN => NaN
  | Fin a, Fin b => Fin (a * b)
  | _, _ =>
      match fsign x, fsign y with
      | Some (Some s), Some (Some t) => inf_of_sign (Bool.eqb s t)
      | _, _ => NaN                       (* infinity times zero *)
      end
  end.

Definition fdiv (x y : float) : float :=
  match y with
  | NaN => NaN
  | Fin b =>
      match sign_of b with
      | Some t =>
          match x with
          | Fin a => Fin (a / b)
          | NaN => NaN
          | PInf => inf_of_sign t
          | NInf => inf_of_sign (negb t)
          end
      | None =>                            (* division by zero *)
          match fsign x with
          | Some (Some s) => inf_of_sign s
          | _ => NaN                       (* 0 / 0 and NaN / 0 *)
          end
      end
  | PInf | NInf =>
      match x with
      | Fin _ => Fin 0
      | _ => NaN
      end
  end.

Definition fsqrt (x : float) : float :=
  match x with
  | Fin r => if Rlt_dec r 0 then NaN else Fin (sqrt r)
  | PInf => PInf
  | NInf | NaN => NaN
  end.

(** [a < b] on float cells; false when either is NaN. *)
Definition fltb (x y : float) : bool :=
  match x, y with
  | NaN, _ | _, NaN => false
  | _, NInf | PInf, _ => false
  | NInf, _ | _, PInf => true
  | Fin a, Fin b => if Rlt_dec a b then true else false
  end.

(** [values.sum()] of a float column. *)
Definition fsum (xs : list float) : float := fold_left fadd xs (Fin 0).

(** [Series.mean()]: missing values are skipped. *)
Definition series_mean (xs : list float) : float :=
  let values := filter notna xs in
  fdiv (fsum values) (of_Z (len values)).

(** [Series.std()]: the sample standard deviation ([ddof = 1]) of the values
    present; NaN when there are not more values than [ddof]. *)
Definition series_std (xs : list float) : float :=
  let values := filter notna xs in
  let count := len values in
  if (count <=? 1)%Z then NaN
  else
    let avg := fdiv (fsum values) (of_Z count) in
    let sqr := map (fun x => fmul (fsub avg x) (fsub avg x)) values in
    fsqrt (fdiv (fsum sqr) (of_Z (count - 1))).

(** [DataFrame.sort_values(key, ascending=False)]: rows with a NaN key go
    last; the others are put in decreasing key order, rows with equal keys
    staying in their order. *)
Section SortValues.
Variable A : Type.
Variable key : A -> float.

Fixpoint insert_desc (e : A) (l : list A) : list A :=
  match l with
  | [] => [e]
  | h :: t => if fltb (key e) (key h) then h :: insert_desc e t else e :: l
  end.

Definition sort_desc (l : list A) : list A := fold_right insert_desc [] l.

Definition sort_values_desc (l : list A) : list A :=
  sort_desc (filter (fun e => notna (key e)) l)
  ++ filter (fun e => is_nan (key e)) l.
End SortValues.

Arguments insert_desc {A} key e l.
Arguments sort_desc {A} key l.
Arguments sort_values_desc {A} key l.

Local Close Scope R_scope.

(* ------------------------------------------------------------------ *)
(** ** Data analysis engine ([ConjointAnalyzer]) *)

Record ResponseRow : Type := mkResponseRow {
  r_respondent_id : Z;
  r_question_id : Z;
  chosen_alternative : cell
}.

(** A row of the merged frame: the design columns, the response column
    brought by the join, and the derived flag. *)
Record MergedRow : Type := mkMergedRow {
  m_design : DesignRow;
  m_chosen_alternative : cell;
  chosen : Z
}.

Record ScoreRow : Type := mkScoreRow {
  benefit : str;
  times_chosen : Z;
  times_shown : Z;
  choice_rate : float;
  utility_score : float;
  preference_pct : float
}.

Record ConjointAnalyzer : Type := mkAnalyzer {
  design_df : list DesignRow;
  response_df : list ResponseRow;
  merged_df : option (list MergedRow);
  results_df : option (list ScoreRow)
}.

(** [ConjointAnalyzer.__init__]. *)
Definition new_analyzer (design : list DesignRow) (response : list ResponseRow)
    : ConjointAnalyzer :=
  mkAnalyzer design response None None.

Definition key_match (d : DesignRow) (r : ResponseRow) : bool :=
  (respondent_id d =? r_respondent_id r) && (question_id d =? r_question_id r).

(** [design_df.merge(response_df, on=[...], how='left')]: every design row,
    in order, once per response row of its key, or once with a missing
    [chosen_alternative] when its key has none. *)
Definition left_merge (design : list DesignRow) (response : list ResponseRow)
    : list (DesignRow * cell) :=
  flat_map (fun d =>
    match filter (key_match d) response with
    | [] => [(d, None)]
    | rs => map (fun r => (d, chosen_alternative r)) rs
    end) design.

(** Elementwise [==] of two text columns: a missing value equals nothing. *)
Definition cell_eqb (a b : cell) : bool :=
  match a, b with
  | Some x, Some y => str_eqb x y
  | _, _ => false
  end.

Definition merge_rows (design : list DesignRow) (response : list ResponseRow)
    : list MergedRow :=
  map (fun p : DesignRow * cell =>
         let (d, c) := p in
         mkMergedRow d c (if cell_eqb (alternative d) c then 1 else 0))
      (left_merge design response).

Definition merge_data (a : ConjointAnalyzer) : list MergedRow * ConjointAnalyzer :=
  let merged := merge_rows (design_df a) (response_df a) in
  (merged, mkAnalyzer (design_df a) (response_df a) (Some merged) (results_df a)).

(** A row of the long format. *)
Record Observation : Type := mkObservation {
  o_benefit : str;
  o_chosen : Z;
  o_respondent_id : Z;
  o_question_id : Z
}.

(** The benefit cells of a row that pass
    [pd.notna(benefit) and benefit != '']. *)
Definition shown_benefits (cells : list cell) : list str :=
  flat_map (fun c : cell =>
              match c with
              | Some [] => []
              | Some b => [b]
              | None => []
              end) cells.

Definition data_long (merged : list MergedRow) : list Observation :=
  flat_map (fun row =>
    map (fun b => mkObservation b (chosen row)
                                (respondent_id (m_design row))
                                (question_id (m_design row)))
        (shown_benefits (benefit_cells (m_design row))))
    merged.

(** Python's order on strings: lexicographic on code points. *)
Fixpoint str_compare (a b : str) : comparison :=
  match a, b with
  | [], [] => Eq
  | [], _ :: _ => Lt
  | _ :: _, [] => Gt
  | x :: a', y :: b' =>
      match N.compare x y with
      | Eq => str_compare a' b'
      | c => c
      end
  end.

Fixpoint insert_key (k : str) (l : list str) : list str :=
  match l with
  | [] => [k]
  | h :: t =>
      match str_compare k h with
      | Gt => h :: insert_key k t
      | _ => k :: l
      end
  end.

(** The group keys of [groupby('benefit')]: the distinct benefits, sorted. *)
Definition group_keys (obs : list Observation) : list str :=
  fold_right insert_key [] (nodup str_eq_dec (map o_benefit obs)).

Definition group_of (obs : list Observation) (k : str) : list Observation :=
  filter (fun o => str_eqb (o_benefit o) k) obs.

Definition sum_chosen (g : list Observation) : Z :=
  fold_right Z.add 0 (map o_chosen g).

(** [groupby('benefit').agg({'chosen': ['sum', 'count', 'mean']})], before
    the two derived columns are filled in. *)
Definition benefit_stats (obs : list Observation) : list ScoreRow :=
  map (fun k =>
         let g := group_of obs k in
         mkScoreRow k (sum_chosen g) (len g)
                    (fdiv (of_Z (sum_chosen g)) (of_Z (len g)))
                    NaN NaN)
      (group_keys obs).

Definition with_utility (stats : list ScoreRow) : list ScoreRow :=
  let rates := map choice_rate stats in
  let mean := series_mean rates in
  let std := series_std rates in
  map (fun e =>
         mkScoreRow (benefit e) (times_chosen e) (times_shown e) (choice_rate e)
                    (fmul (fdiv (fsub (choice_rate e) mean) std) (Fin 100))
                    (preference_pct e))
      stats.

Definition with_preference_pct (stats : list ScoreRow) : list ScoreRow :=
  map (fun e =>
         mkScoreRow (benefit e) (times_chosen e) (times_shown e) (choice_rate e)
                    (utility_score e) (fmul (choice_rate e) (Fin 100)))
      stats.

(** [calculate_preference_scores].  Iterating [merged_df] while it is still
    [None] raises [AttributeError]; grouping an empty long frame, which has
    no ['benefit'] column, raises [KeyError]. *)
Definition calculate_preference_scores (a : ConjointAnalyzer)
    : result (list ScoreRow * ConjointAnalyzer) :=
  match merged_df a with
  | None => Raise AttributeError
  | Some merged =>
      match data_long merged with
      | [] => Raise KeyError
      | df_long =>
          let stats := benefit_stats df_long in
          let stats := with_utility stats in
          let stats := with_preference_pct stats in
          let stats := sort_values_desc utility_score stats in
          Ok (stats,
              mkAnalyzer (design_df a) (response_df a) (merged_df a) (Some stats))
      end
  end.

(** *** The optional logit estimator

    [statsmodels] is an external package.  The environment either lacks it
    ([None]: the [import] raises [ImportError]) or provides a fitting
    procedure, which on a design matrix and a response vector either raises
    or returns coefficients and p-values together with its convergence
    flag. *)









(** The specification's two-alternative scenario: respondent 1, question 1,
    A shows X and B shows Y; the respondent chose A. *)
Definition design_xy : list DesignRow :=
  [mkDesignRow 1 1 (Some (py "A")) [Some (py "X")];
   mkDesignRow 1 1 (Some (py "B")) [Some (py "Y")]].

Definition response_a : list ResponseRow := [mkResponseRow 1 1 (Some (py "A"))].

Definition analyzer_xy : ConjointAnalyzer :=
  snd (merge_data (new_analyzer design_xy response_a)).

(** A designer with an empty catalog, and one asking for a negative number
    of benefits per alternative. *)
Definition designer_empty : ConjointSurveyDesigner := mkDesigner [] 2 1 2.
Definition designer_negative : ConjointSurveyDesigner := mkDesigner catalog4 2 1 (-1).

(** The analysis run of the application: construct, merge, score. *)
Definition analyze (design : list DesignRow) (response : list ResponseRow)
    : result (list ScoreRow * ConjointAnalyzer) :=
  calculate_preference_scores (snd (merge_data (new_analyzer design response))).

(** Reading a scorecard: the row of a benefit, and its two counts (0 when
    the benefit has no row or no scorecard was produced). *)
Definition find_score (b : str) (sc : list ScoreRow) : option ScoreRow :=
  find (fun e => str_eqb (benefit e) b) sc.

Definition times_shown_of (r : result (list ScoreRow * ConjointAnalyzer))
    (b : str) : Z :=
  match r with
  | Ok (sc, _) => match find_score b sc with Some e => times_shown e | None => 0 end
  | Raise _ => 0
  end.

Definition times_chosen_of (r : result (list ScoreRow * ConjointAnalyzer))
    (b : str) : Z :=
  match r with
  | Ok (sc, _) => match find_score b sc with Some e => times_chosen e | None => 0 end
  | Raise _ => 0
  end.

Definition scorecard_of (r : result (list ScoreRow * ConjointAnalyzer))
    : result (list ScoreRow) :=
  match r with
  | Ok (sc, _) => Ok sc
  | Raise e => Raise e
  end.

(** Keys of design and response rows. *)
Definition row_key (row : DesignRow) : Z * Z * cell :=
  (respondent_id row, question_id row, alternative row).

Definition response_key (r : ResponseRow) : Z * Z :=
  (r_respondent_id r, r_question_id r).

(** The merged rows of a (respondent, question) pair that are flagged. *)
Definition chosen_rows (rid qid : Z) (merged : list MergedRow) : list MergedRow :=
  filter (fun m => (respondent_id (m_design m) =? rid)
                   && (question_id (m_design m) =? qid)
                   && (chosen m =? 1))
         merged.


(** A generated design for two respondents, and one answer for each. *)
Definition draws8 : Rng := [0; 0; 1; 0; 3; 1; 0; 0]%nat.

Definition surveys4 : list Survey :=
  Eval vm_compute in
    match generate_survey designer4 2 draws8 with
    | Ok (surveys, _) => surveys
    | Raise _ => []
    end.

Definition response4 : list ResponseRow :=
  [mkResponseRow 1 1 (Some (py "A")); mkResponseRow 2 1 (Some (py "B"))].



(* ------------------------------------------------------------------ *)
(** ** Further definitions: the rest of the two programs *)

From Stdlib Require DecimalString DecimalZ.
From Stdlib Require Import Sorted.

(** The label of alternative number [alt_id]: [chr(65 + alt_id)]. *)
Definition label_of (alt_id : Z) : str := [Z.to_N (65 + alt_id)].

(** Two bundles without a common benefit. *)
Definition disjoint (b1 b2 : list str) : Prop :=
  forall b, In b b1 -> ~ In b b2.

(** *** [generate_google_forms_template] *)


(** [str(i)] of an integer: its decimal digits, with a sign when negative. *)
Definition str_of_Z (z : Z) : str :=
  py (DecimalString.NilEmpty.string_of_int (Z.to_int z)).

(** [sep.join(parts)]. *)
Definition join (sep : str) (parts : list str) : str :=
  match parts with
  | [] => []
  | p :: ps => p ++ flat_map (fun q => sep ++ q) ps
  end.

Definition nl : str := [10%N].

Record FormData : Type := mkFormData {
  f_respondent_id : Z;
  form_content : str
}.

(** The line appended for one alternative. *)
Definition option_line (alt : Alternative) : str :=
  py "- **Option " ++ alternative_id alt ++ py "**: "
  ++ join (py " + ") (alt_benefits alt) ++ nl.

(** The body of the loop over the questions of a survey. *)
Definition append_question (form_text : str) (question : Question) : str :=
  let form_text :=
    form_text ++ py "## Question " ++ str_of_Z (q_question_id question) ++ nl in
  let form_text :=
    form_text ++ py "Which benefit package do you prefer most?" ++ nl ++ nl in
  let form_text :=
    fold_left (fun text alt => text ++ option_line alt)
              (alternatives question) form_text in
  let form_text :=
    form_text ++ nl ++ py "*Your answer (A/B/C):* ___________" ++ nl ++ nl in
  form_text ++ py "---" ++ nl ++ nl.

Definition form_header (survey : Survey) : str :=
  let form_text :=
    py "# Employee Benefits Survey - Employee ID: "
    ++ str_of_Z (s_respondent_id survey) ++ nl ++ nl in
  let form_text :=
    form_text
    ++ py "Please select your preferred benefit package for each question."
    ++ nl ++ nl in
  form_text ++ py "---" ++ nl ++ nl.

Definition generate_google_forms_template (surveys : list Survey)
    : list FormData :=
  map (fun survey =>
         mkFormData (s_respondent_id survey)
                    (fold_left append_question (questions survey)
                               (form_header survey)))
      surveys.

(** [needle] occurs in [text]. *)
Definition occurs (needle text : str) : Prop :=
  exists before after, text = before ++ needle ++ after.

(** [prefix] starts [text]. *)
Definition starts_with (prefix text : str) : Prop :=
  exists rest, text = prefix ++ rest.

(** The text one question contributes to a form. *)
Definition question_block (question : Question) : str :=
  py "## Question " ++ str_of_Z (q_question_id question) ++ nl
  ++ py "Which benefit package do you prefer most?" ++ nl ++ nl
  ++ flat_map option_line (alternatives question)
  ++ nl ++ py "*Your answer (A/B/C):* ___________" ++ nl ++ nl
  ++ py "---" ++ nl ++ nl.

(** The first line of a form. *)
Definition form_title (rid : Z) : str :=
  py "# Employee Benefits Survey - Employee ID: " ++ str_of_Z rid ++ nl.

(** *** Reading the analysis *)

(** The sum of an integer column. *)
Definition column_sum (xs : list Z) : Z := fold_right Z.add 0 xs.

(** A benefit a design row shows: a non-empty, non-missing benefit cell. *)
Definition shows (d : DesignRow) (b : str) : Prop :=
  In b (shown_benefits (benefit_cells d)).

(** The number of response rows carrying the key of a design row. *)
Definition matches (d : DesignRow) (response : list ResponseRow) : nat :=
  length (filter (key_match d) response).

(** *** The sample response generator of the analysis page *)

(** [Series.unique()]: the distinct values, in order of first appearance. *)
Fixpoint py_unique {A : Type} (eq_dec : forall x y : A, {x = y} + {x <> y})
    (l : list A) : list A :=
  match l with
  | [] => []
  | x :: t =>
      x :: filter (fun y => if eq_dec x y then false else true)
                  (py_unique eq_dec t)
  end.

Definition cell_eq_dec : forall a b : cell, {a = b} + {a <> b}.
Proof. decide equality. apply str_eq_dec. Defined.

(** [np.random.choice(a)]: one entry of [a], at a drawn position;
    [ValueError] when [a] is empty. *)
Definition random_choice {A : Type} (a : list A) : M A :=
  match a with
  | [] => raise ValueError
  | _ =>
      j <- randbelow (length a) ;;
      match nth_error a j with
      | Some x => ret x
      | None => raise IndexError
      end
  end.

(** The rows of the design with a given respondent, and with a given
    respondent and question. *)
Definition rows_of_respondent (design : list DesignRow) (resp_id : Z)
    : list DesignRow :=
  filter (fun d => respondent_id d =? resp_id) design.

Definition rows_of_question (design : list DesignRow) (resp_id q_id : Z)
    : list DesignRow :=
  filter (fun d => (respondent_id d =? resp_id) && (question_id d =? q_id)) design.

(** The loop under "Generate Sample Responses": one response per respondent
    and question of the design, choosing among the alternatives the design
    lists for that question. *)
Definition generate_sample_responses (design : list DesignRow)
    : M (list ResponseRow) :=
  per_respondent <-
    for_each (py_unique Z.eq_dec (map respondent_id design)) (fun resp_id =>
      for_each (py_unique Z.eq_dec
                  (map question_id (rows_of_respondent design resp_id)))
        (fun q_id =>
           let alternatives :=
             py_unique cell_eq_dec
               (map alternative (rows_of_question design resp_id q_id)) in
           c <- random_choice alternatives ;;
           ret (mkResponseRow resp_id q_id c))) ;;
  ret (concat per_respondent).

(** *** [save_to_database]

    The SQLite file is a finite map from table names to tables; the clock
    reading that stamps the run is an input. *)








(** *** Reading the benefit list of the designer page

    [benefits_list = [b.strip() for b in benefits_text.split("\n") if b.strip()]] *)

Local Open Scope N_scope.

(** [str.isspace] on one character: the Unicode white space. *)
Definition is_space (c : N) : bool :=
  ((9 <=? c) && (c <=? 13)) || ((28 <=? c) && (c <=? 32))
  || (c =? 133) || (c =? 160) || (c =? 5760)
  || ((8192 <=? c) && (c <=? 8202))
  || (c =? 8232) || (c =? 8233) || (c =? 8239) || (c =? 8287) || (c =? 12288).

Local Close Scope N_scope.

Fixpoint lstrip (s : str) : str :=
  match s with
  | [] => []
  | c :: t => if is_space c then lstrip t else s
  end.

Definition rstrip (s : str) : str := rev (lstrip (rev s)).

(** [s.strip()]. *)
Definition strip (s : str) : str := rstrip (lstrip s).

(** [s.split(sep)] for a one-character separator. *)
Fixpoint split_on (sep : N) (s : str) : list str :=
  match s with
  | [] => [[]]
  | c :: t =>
      if N.eqb c sep then [] :: split_on sep t
      else match split_on sep t with
           | h :: r => (c :: h) :: r
           | [] => [[c]]
           end
  end.

Definition parse_benefits (benefits_text : str) : list str :=
  flat_map (fun b => match strip b with
                     | [] => []
                     | name => [name]
                     end)
           (split_on 10 benefits_text).

(** A name as the list holds it: not empty, without surrounding white
    space, on one line. *)
Definition clean_name (b : str) : Prop :=
  b <> [] /\ strip b = b /\ ~ In 10%N b.
(* ------------------------------------------------------------------ *)
(** ** Facts about ranges and the monad *)

Lemma py_range_length (lo hi : Z) :
  length (py_range lo hi) = Z.to_nat (hi - lo).
Proof. unfold py_range. now rewrite length_map, length_seq. Qed.

Lemma py_range_In (lo hi x : Z) : In x (py_range lo hi) <-> lo <= x < hi.
Proof.
  unfold py_range. rewrite in_map_iff. split.
  - intros (i & <- & Hi). apply in_seq in Hi. lia.
  - intros H. exists (Z.to_nat (x - lo)). split; [lia|].
    apply in_seq. lia.
Qed.

Lemma py_range_NoDup (lo hi : Z) : NoDup (py_range lo hi).
Proof.
  unfold py_range. apply Injective_map_NoDup.
  - intros a b H. lia.
  - apply seq_NoDup.
Qed.

Lemma py_range_empty (lo hi : Z) : hi <= lo -> py_range lo hi = [].
Proof.
  intros H. unfold py_range. replace (Z.to_nat (hi - lo)) with 0%nat by lia.
  reflexivity.
Qed.

Lemma bind_Ok {A B : Type} (m : M A) (f : A -> M B) rng b rng2 :
  bind m f rng = Ok (b, rng2) <->
  exists a rng1, m rng = Ok (a, rng1) /\ f a rng1 = Ok (b, rng2).
Proof.
  unfold bind. destruct (m rng) as [[a rng1]|e]; split.
  - intros H. now exists a, rng1.
  - intros (a' & r' & Heq & H). now inversion Heq; subst.
  - discriminate.
  - intros (a' & r' & Heq & _). discriminate.
Qed.

Lemma Forall2_In_r {A B : Type} {P : A -> B -> Prop} {xs ys y} :
  Forall2 P xs ys -> In y ys -> exists x, In x xs /\ P x y.
Proof.
  induction 1 as [|x y' xs ys HP _ IH]; intros Hin; [contradiction|].
  destruct Hin as [->|Hin].
  - exists x. split; [now left | assumption].
  - destruct (IH Hin) as (x' & Hx & HP'). exists x'. split; [now right | assumption].
Qed.

Lemma Forall2_map_r {A B : Type} (g : B -> A) xs ys :
  Forall2 (fun x y => g y = x) xs ys -> map g ys = xs.
Proof. induction 1; cbn; congruence. Qed.

Lemma for_each_Ok {A B : Type} (f : A -> M B) (P : A -> B -> Prop) :
  forall xs,
  (forall x rng, In x xs -> exists y rng', f x rng = Ok (y, rng') /\ P x y) ->
  forall rng, exists ys rng',
    for_each xs f rng = Ok (ys, rng') /\ Forall2 P xs ys.
Proof.
  induction xs as [|x xs IH]; intros Hf rng.
  - exists [], rng. split; [reflexivity | constructor].
  - destruct (Hf x rng (or_introl eq_refl)) as (y & rng1 & Hy & HP).
    destruct (IH (fun x' r Hin => Hf x' r (or_intror Hin)) rng1)
      as (ys & rng2 & Hys & HF).
    exists (y :: ys), rng2. split.
    + cbn. unfold bind at 1. rewrite Hy. unfold bind at 1. now rewrite Hys.
    + now constructor.
Qed.

Lemma for_each_inv {A B : Type} (f : A -> M B) (P : A -> B -> Prop) :
  forall xs,
  (forall x rng y rng', In x xs -> f x rng = Ok (y, rng') -> P x y) ->
  forall rng ys rng',
    for_each xs f rng = Ok (ys, rng') -> Forall2 P xs ys.
Proof.
  induction xs as [|x xs IH]; intros Hf rng ys rng' H.
  - cbn in H. inversion H; subst. constructor.
  - cbn in H. apply bind_Ok in H as (y & r1 & Hy & H).
    apply bind_Ok in H as (ys' & r2 & Hys & H).
    inversion H; subst. constructor.
    + eapply Hf; [now left | eassumption].
    + eapply IH; [|eassumption]. intros; eapply Hf; [now right | eassumption].
Qed.

(* ------------------------------------------------------------------ *)
(** ** Facts about [random.sample] *)

Section SampleFacts.
Variable A : Type.
Implicit Types (pool res : list A) (js : list nat).

Lemma list_set_app (a : list A) (x v : A) (t : list A) :
  list_set (length a) v (a ++ x :: t) = a ++ v :: t.
Proof. induction a as [|h a IH]; cbn; [reflexivity | now rewrite IH]. Qed.

Lemma list_set_same (j : nat) (x : A) (l : list A) :
  nth_error l j = Some x -> list_set j x l = l.
Proof.
  revert j; induction l as [|h l IH]; intros [|j] H; cbn in *;
    try discriminate; [now inversion H | now rewrite IH].
Qed.

(** Taking position [j] yields the item there and leaves the others. *)
Lemma pool_take_spec pool j :
  (j < length pool)%nat ->
  exists x pool',
    pool_take j pool = Some (x, pool') /\ nth_error pool j = Some x /\
    Permutation pool (x :: pool').
Proof.
  intros Hj. destruct (@exists_last _ pool) as (init & l & ->).
  { intros ->. cbn in Hj. lia. }
  unfold pool_take. rewrite length_app in *. cbn [length] in *.
  replace (length init + 1 - 1)%nat with (length init) by lia.
  assert (Hl : nth_error (init ++ [l]) (length init) = Some l).
  { rewrite nth_error_app2 by lia. now rewrite Nat.sub_diag. }
  rewrite Hl.
  destruct (Nat.eq_dec j (length init)) as [->|Hne].
  - rewrite Hl. exists l, init. repeat split.
    + rewrite list_set_same by assumption.
      now rewrite firstn_app, Nat.sub_diag, firstn_all, app_nil_r.
    + symmetry. apply Permutation_cons_append.
  - assert (Hlt : (j < length init)%nat) by lia.
    destruct (nth_error init j) as [x|] eqn:Hx.
    2:{ apply nth_error_None in Hx. lia. }
    rewrite nth_error_app1, Hx by assumption.
    destruct (nth_error_split _ _ Hx) as (a & b & -> & Hlen). subst j.
    exists x, (a ++ l :: b). repeat split.
    + rewrite <- app_assoc. cbn [app]. rewrite list_set_app.
      f_equal. f_equal.
      replace (a ++ l :: b ++ [l]) with ((a ++ l :: b) ++ [l])
        by (now rewrite <- app_assoc).
      rewrite firstn_app.
      replace (length (a ++ x :: b) - length (a ++ l :: b))%nat with 0%nat
        by (rewrite !length_app; cbn; lia).
      replace (length (a ++ x :: b)) with (length (a ++ l :: b))
        by (rewrite !length_app; cbn; lia).
      now rewrite firstn_all, app_nil_r.
    + rewrite <- app_assoc. cbn [app].
      transitivity (x :: a ++ b ++ [l]).
      * symmetry. apply Permutation_middle.
      * constructor. apply Permutation_app_head.
        symmetry. apply Permutation_cons_append.
Qed.

Lemma randbelow_spec (n : nat) rng :
  (0 < n)%nat ->
  exists j rng', randbelow n rng = Ok (j, rng') /\ (j < n)%nat.
Proof.
  intros Hn. destruct rng as [|r rng]; cbn.
  - now exists 0%nat, [].
  - exists (r mod n)%nat, rng. split; [reflexivity|].
    apply Nat.mod_upper_bound. lia.
Qed.

(** The loop never fails within the pool and selects [k] items of it,
    each position at most once. *)
Lemma sample_loop_spec k : forall pool rng,
  (k <= length pool)%nat ->
  exists res rng' rest,
    sample_loop k pool rng = Ok (res, rng') /\ length res = k /\
    Permutation pool (res ++ rest).
Proof.
  induction k as [|k IH]; intros pool rng Hk.
  - exists [], rng, pool. now repeat split.
  - destruct (randbelow_spec (length pool) rng) as (j & rng1 & Hr & Hj); [lia|].
    destruct (pool_take_spec pool j Hj) as (x & pool' & Ht & _ & Hperm).
    assert (Hlen : length pool = S (length pool')).
    { now rewrite (Permutation_length Hperm). }
    destruct (IH pool' rng1) as (res & rng2 & rest & Hs & Hl & Hp); [lia|].
    exists (x :: res), rng2, rest. repeat split.
    + cbn [sample_loop]. unfold bind at 1. rewrite Hr, Ht.
      unfold bind at 1. now rewrite Hs.
    + cbn. now rewrite Hl.
    + cbn. rewrite Hperm. now constructor.
Qed.

Lemma sample_loop_inv k : forall pool rng res rng',
  sample_loop k pool rng = Ok (res, rng') ->
  length res = k /\ exists rest, Permutation pool (res ++ rest).
Proof.
  induction k as [|k IH]; intros pool rng res rng' H.
  - cbn in H. inversion H; subst. split; [reflexivity | now exists pool].
  - cbn [sample_loop] in H. apply bind_Ok in H as (j & rng1 & Hr & H).
    destruct (pool_take j pool) as [[x pool']|] eqn:Ht; [|discriminate].
    apply bind_Ok in H as (r & rng2 & Hs & H).
    destruct (IH _ _ _ _ Hs) as (Hl & rest & Hp).
    injection H as <- <-.
    assert (Hj : (j < length pool)%nat).
    { unfold pool_take in Ht. destruct (nth_error pool j) eqn:E; [|discriminate].
      apply nth_error_Some. congruence. }
    destruct (pool_take_spec pool j Hj) as (x' & p' & Ht' & _ & Hperm).
    rewrite Ht in Ht'. injection Ht' as <- <-.
    split; [cbn; now rewrite Hl|]. exists rest. cbn. rewrite Hperm.
    now constructor.
Qed.




End SampleFacts.

Example generate_question_runs :
  generate_question designer4 1 [0; 0; 1; 0]%nat
  = Ok (mkQuestion 1 [mkAlternative (py "A") [py "A"; py "D"];
                      mkAlternative (py "B") [py "C"; py "B"]], []).
Proof. reflexivity. Qed.


(* ------------------------------------------------------------------ *)
(** ** Scoring needs the merged frame *)

(** C10: on a freshly constructed analyzer, whatever the design and response
    frames, [calculate_preference_scores] fails ([merged_df] is still
    [None]); and whenever the scoring returns a scorecard, the analyzer
    holds a merged frame. *)
Theorem scores_require_merge :
  (forall design response,
     calculate_preference_scores (new_analyzer design response)
     = Raise AttributeError) /\
  (forall a r,
     calculate_preference_scores a = Ok r ->
     exists merged, merged_df a = Some merged).
Proof.
  split.
  - reflexivity.
  - intros a r H. unfold calculate_preference_scores in H.
    destruct (merged_df a) as [merged|]; [now exists merged | discriminate].
Qed.

Lemma scores_require_merge_witness :
  exists r, calculate_preference_scores analyzer_xy = Ok r /\
            exists merged, merged_df analyzer_xy = Some merged.
Proof.
  eexists. split.
  - reflexivity.
  - eapply (proj2 scores_require_merge). reflexivity.
Defined.

(* ------------------------------------------------------------------ *)
(** ** Facts about the design generator *)

Lemma py_range_cons (lo hi : Z) :
  lo < hi -> py_range lo hi = lo :: py_range (lo + 1) hi.
Proof.
  intros H. unfold py_range.
  replace (Z.to_nat (hi - lo)) with (S (Z.to_nat (hi - (lo + 1)))) by lia.
  cbn [seq map]. f_equal; [lia|].
  rewrite <- seq_shift, map_map. apply map_ext. intros i. lia.
Qed.

Lemma random_sample_spec {A : Type} (population : list A) (k : Z) rng :
  0 <= k <= len population ->
  exists res rng' rest,
    random_sample population k rng = Ok (res, rng') /\
    length res = Z.to_nat k /\ Permutation population (res ++ rest).
Proof.
  intros Hk. unfold random_sample, len in *.
  replace ((k <? 0) || (Z.of_nat (length population) <? k)) with false
    by (symmetry; apply orb_false_iff; split; lia).
  apply sample_loop_spec. lia.
Qed.

Lemma random_sample_inv {A : Type} (population : list A) (k : Z) rng res rng' :
  random_sample population k rng = Ok (res, rng') ->
  0 <= k <= len population /\ length res = Z.to_nat k /\
  exists rest, Permutation population (res ++ rest).
Proof.
  unfold random_sample, len. intros H.
  destruct ((k <? 0) || (Z.of_nat (length population) <? k)) eqn:E;
    [discriminate|].
  apply orb_false_iff in E as [E1 E2].
  split; [lia|]. eapply sample_loop_inv; eassumption.
Qed.

Lemma random_sample_negative {A : Type} (population : list A) (k : Z) rng :
  k < 0 -> random_sample population k rng = Raise ValueError.
Proof.
  intros H. unfold random_sample.
  replace (k <? 0) with true by (symmetry; apply Z.ltb_lt; lia). reflexivity.
Qed.

Section Designer.
Variable d : ConjointSurveyDesigner.

Lemma generate_random_bundle_spec exclude rng :
  0 <= items_per_alternative d ->
  exists bundle rng' rest,
    generate_random_bundle d exclude rng = Ok (bundle, rng') /\
    length bundle
    = Z.to_nat (Z.min (items_per_alternative d) (len (draw_pool d exclude))) /\
    Permutation (draw_pool d exclude) (bundle ++ rest).
Proof.
  intros H. unfold generate_random_bundle. apply random_sample_spec.
  unfold len. lia.
Qed.

Lemma generate_random_bundle_inv exclude rng bundle rng' :
  generate_random_bundle d exclude rng = Ok (bundle, rng') ->
  0 <= items_per_alternative d /\
  length bundle
  = Z.to_nat (Z.min (items_per_alternative d) (len (draw_pool d exclude))) /\
  exists rest, Permutation (draw_pool d exclude) (bundle ++ rest).
Proof.
  unfold generate_random_bundle. intros H.
  apply random_sample_inv in H as (Hk & Hl & Hp).
  unfold len in *. repeat split; [lia | assumption | assumption].
Qed.

Lemma lift_chr_Ok (i : Z) rng label rng' :
  lift (chr i) rng = Ok (label, rng') <-> chr i = Ok label /\ rng' = rng.
Proof.
  unfold lift. destruct (chr i) as [s|e]; split.
  - intros H. now inversion H.
  - intros [H1 H2]. inversion H1; now subst.
  - discriminate.
  - intros [H _]. discriminate.
Qed.

Lemma chr_total (i : Z) : 0 <= i < 1114112 -> chr i = Ok [Z.to_N i].
Proof.
  intros H. unfold chr.
  replace ((0 <=? i) && (i <? 1114112)) with true; [reflexivity|].
  symmetry. apply andb_true_iff. split; [apply Z.leb_le | apply Z.ltb_lt]; lia.
Qed.

Lemma chr_inv (i : Z) (s : str) :
  chr i = Ok s -> 0 <= i < 1114112 /\ s = [Z.to_N i].
Proof.
  unfold chr. destruct ((0 <=? i) && (i <? 1114112)) eqn:E; [|discriminate].
  apply andb_true_iff in E as [E1 E2]. intros H. inversion H. split; [lia|reflexivity].
Qed.

Lemma question_loop_inv : forall alt_ids alts used rng res rng',
  question_loop d alt_ids alts used rng = Ok (res, rng') ->
  exists new, res = alts ++ new /\ Forall2 (alternative_ok d) alt_ids new.
Proof.
  induction alt_ids as [|i ids IH]; intros alts used rng res rng' H.
  - cbn in H. inversion H; subst. exists []. split; [now rewrite app_nil_r | constructor].
  - cbn [question_loop] in H.
    apply bind_Ok in H as (bundle & r1 & Hb & H).
    apply bind_Ok in H as (label & r2 & Hc & H).
    apply lift_chr_Ok in Hc as [Hc ->].
    apply IH in H as (new & -> & HF).
    exists (mkAlternative label bundle :: new). split.
    + now rewrite <- app_assoc.
    + constructor; [|assumption]. split; [assumption|]. cbn.
      apply generate_random_bundle_inv in Hb as (_ & Hl & _). rewrite Hl. lia.
Qed.

Lemma question_loop_total : forall alt_ids alts used rng,
  0 <= items_per_alternative d ->
  (forall i, In i alt_ids -> 0 <= 65 + i < 1114112) ->
  exists res rng', question_loop d alt_ids alts used rng = Ok (res, rng').
Proof.
  induction alt_ids as [|i ids IH]; intros alts used rng Hit Hids.
  - now exists alts, rng.
  - destruct (generate_random_bundle_spec used rng Hit)
      as (bundle & r1 & rest & Hb & _).
    destruct (IH (alts ++ [mkAlternative [Z.to_N (65 + i)] bundle])
                 (set_update used bundle) r1 Hit) as (res & r2 & Hq).
    { intros j Hj. apply Hids. now right. }
    exists res, r2. cbn [question_loop]. unfold bind at 1. rewrite Hb.
    unfold bind at 1, lift. rewrite chr_total by (apply Hids; now left).
    exact Hq.
Qed.

Lemma generate_question_inv qid rng q rng' :
  generate_question d qid rng = Ok (q, rng') -> question_ok d qid q.
Proof.
  unfold generate_question. intros H.
  apply bind_Ok in H as (alts & r1 & Hq & H). inversion H; subst.
  apply question_loop_inv in Hq as (new & -> & HF). now split.
Qed.

Lemma generate_question_total qid rng :
  0 <= items_per_alternative d -> n_alternatives d <= 1114047 ->
  exists q rng', generate_question d qid rng = Ok (q, rng').
Proof.
  intros Hit Hn.
  destruct (question_loop_total (py_range 0 (n_alternatives d)) []
              (empty_set str) rng Hit) as (alts & r1 & Hq).
  { intros i Hi. apply py_range_In in Hi. lia. }
  exists (mkQuestion qid alts), r1. unfold generate_question, bind.
  now rewrite Hq.
Qed.

Lemma generate_survey_inv n rng surveys rng' :
  generate_survey d n rng = Ok (surveys, rng') -> design_ok d n surveys.
Proof.
  unfold generate_survey, design_ok. apply for_each_inv.
  intros rid r1 s r2 _ H.
  apply bind_Ok in H as (qs & r3 & Hqs & H). inversion H; subst.
  split; [reflexivity|]. cbn.
  revert Hqs. apply for_each_inv.
  intros qid r4 q r5 _. apply generate_question_inv.
Qed.

Lemma generate_survey_total n rng :
  0 <= items_per_alternative d -> n_alternatives d <= 1114047 ->
  exists surveys rng', generate_survey d n rng = Ok (surveys, rng').
Proof.
  intros Hit Hn. unfold generate_survey.
  destruct (for_each_Ok
              (fun resp_id =>
                 qs <- for_each (py_range 1 (n_questions d + 1))
                                (generate_question d) ;;
                 ret (mkSurvey resp_id qs))
              (fun _ _ => True) (py_range 1 (n + 1))) with (rng := rng)
    as (ys & r & H & _).
  - intros rid r1 _.
    destruct (for_each_Ok (generate_question d) (fun _ _ => True)
                (py_range 1 (n_questions d + 1))) with (rng := r1)
      as (qs & r2 & Hqs & _).
    + intros qid r3 _.
      destruct (generate_question_total qid r3 Hit Hn) as (q & r4 & Hq).
      now exists q, r4.
    + exists (mkSurvey rid qs), r2. split; [|exact I].
      unfold bind. now rewrite Hqs.
  - now exists ys, r.
Qed.


Lemma benefit_cols_of_spec (alt : Alternative) :
  (length (alt_benefits alt) <= Z.to_nat (items_per_alternative d))%nat ->
  benefit_cols_of d alt
  = map Some (alt_benefits alt)
    ++ repeat (Some [])
              (Z.to_nat (items_per_alternative d) - length (alt_benefits alt)).
Proof.
  unfold benefit_cols_of, py_range. rewrite Z.sub_0_r.
  generalize (Z.to_nat (items_per_alternative d)) as k.
  generalize (alt_benefits alt) as bs. clear alt.
  intros bs k Hk. rewrite map_map.
  erewrite map_ext
    with (g := fun i => match nth_error bs i with
                        | Some b => Some b | None => Some [] end)
    by (intros i; cbn; now rewrite Nat2Z.id).
  revert k Hk. induction bs as [|b bs IH]; intros k Hk.
  - cbn [length map app]. rewrite Nat.sub_0_r.
    clear Hk. generalize 0%nat as s.
    induction k as [|k IHk]; intros s; [reflexivity|].
    cbn [seq map repeat]. rewrite IHk. now destruct s.
  - destruct k as [|k]; [cbn in Hk; lia|].
    cbn [seq map length Nat.sub nth_error app]. f_equal.
    rewrite <- seq_shift, map_map. cbn [nth_error].
    apply IH. cbn in Hk. lia.
Qed.

End Designer.

(* ------------------------------------------------------------------ *)
(** ** The bundle sampler *)



(* ------------------------------------------------------------------ *)
(** ** Configuration and the shape of the design *)



(** C1 as the code has it: nothing validates the configuration.  With a
    non-negative bundle size (and labels within [chr]'s range) generation
    returns normally whatever the counts and the catalog are, with the shape
    the counts dictate; a non-positive respondent count gives the empty
    list; a negative bundle size is rejected by [random.sample] when the
    first bundle is drawn. *)
Theorem config_not_validated (d : ConjointSurveyDesigner) (n_respondents : Z)
    (rng : Rng) :
  (0 <= items_per_alternative d -> n_alternatives d <= 1114047 ->
   exists surveys rng',
     generate_survey d n_respondents rng = Ok (surveys, rng') /\
     design_ok d n_respondents surveys) /\
  (n_respondents <= 0 -> generate_survey d n_respondents rng = Ok ([], rng)) /\
  (items_per_alternative d < 0 -> 1 <= n_respondents -> 1 <= n_questions d ->
   1 <= n_alternatives d ->
   generate_survey d n_respondents rng = Raise ValueError).
Proof.
  split; [|split].
  - intros Hi Ha.
    destruct (generate_survey_total d n_respondents rng Hi Ha)
      as (surveys & rng' & H).
    exists surveys, rng'. split; [assumption|].
    eapply generate_survey_inv; eassumption.
  - intros Hn. unfold generate_survey. now rewrite py_range_empty by lia.
  - intros Hi Hn Hq Ha. unfold generate_survey.
    rewrite (py_range_cons 1 (n_respondents + 1)) by lia.
    cbn [for_each]. unfold bind at 1. unfold bind at 1.
    rewrite (py_range_cons 1 (n_questions d + 1)) by lia.
    cbn [for_each]. unfold bind at 1. unfold generate_question at 1.
    unfold bind at 1. rewrite (py_range_cons 0 (n_alternatives d)) by lia.
    cbn [question_loop]. unfold bind at 1. unfold generate_random_bundle.
    rewrite random_sample_negative; [reflexivity|]. lia.
Qed.

Lemma config_not_validated_witness :
  (exists surveys rng',
      generate_survey designer_empty 1 [] = Ok (surveys, rng') /\
      design_ok designer_empty 1 surveys) /\
  generate_survey designer4 0 [] = Ok ([], []) /\
  generate_survey designer_negative 1 [] = Raise ValueError.
Proof.
  split; [|split].
  - apply (proj1 (config_not_validated designer_empty 1 [])); cbn; lia.
  - apply (proj1 (proj2 (config_not_validated designer4 0 []))); lia.
  - apply (proj2 (proj2 (config_not_validated designer_negative 1 [])));
      cbn; lia.
Defined.

(** C1 as stated fails: an empty catalog is not rejected, and rows are
    produced from it. *)
Lemma config_validation_counterexample :
  generate_survey designer_empty 1 []
  = Ok ([mkSurvey 1 [mkQuestion 1 [mkAlternative (py "A") [];
                                    mkAlternative (py "B") []]]], []) /\
  export_to_csv designer_empty
    [mkSurvey 1 [mkQuestion 1 [mkAlternative (py "A") [];
                                mkAlternative (py "B") []]]]
  = [mkDesignRow 1 1 (Some (py "A")) [Some []; Some []];
     mkDesignRow 1 1 (Some (py "B")) [Some []; Some []]].
Proof. split; reflexivity. Qed.

(* ------------------------------------------------------------------ *)
(** ** Overlap avoidance within a question *)

Lemma set_update_In (used : set str) (bundle : list str) (b : str) :
  set_In b (set_update used bundle) <-> set_In b used \/ In b bundle.
Proof.
  unfold set_update. revert used.
  induction bundle as [|x bundle IH]; intros used; cbn.
  - tauto.
  - rewrite IH, set_add_iff. intuition auto.
Qed.

(** Erasing the record gives back the program. *)
Lemma question_loop_log_erase (d : ConjointSurveyDesigner) :
  forall alt_ids alts used log rng,
    question_loop d alt_ids alts used rng
    = match question_loop_log d alt_ids alts used log rng with
      | Ok (r, rng') => Ok (fst r, rng')
      | Raise e => Raise e
      end.
Proof.
  induction alt_ids as [|i ids IH]; intros alts used log rng; [reflexivity|].
  cbn [question_loop question_loop_log]. unfold bind at 1 3.
  destruct (generate_random_bundle d used rng) as [[bundle r1]|e]; [|reflexivity].
  unfold bind at 1 2.
  destruct (lift (chr (65 + i)) r1) as [[label r2]|e]; [|reflexivity].
  apply IH.
Qed.

Lemma generate_question_log_erase (d : ConjointSurveyDesigner) qid rng q log rng' :
  generate_question_log d qid rng = Ok ((q, log), rng') ->
  generate_question d qid rng = Ok (q, rng').
Proof.
  unfold generate_question_log, generate_question. intros H.
  apply bind_Ok in H as ([alts log'] & r1 & Hq & H). injection H as <- <- <-.
  unfold bind.
  rewrite (question_loop_log_erase d _ _ _ []), Hq. reflexivity.
Qed.

(** What the loop maintains while no draw falls back: the benefits placed
    so far are all in [used], and no later alternative repeats a benefit of
    an earlier one. *)
Lemma question_loop_log_disjoint (d : ConjointSurveyDesigner) :
  forall alt_ids alts used log rng res log' rng',
    question_loop_log d alt_ids alts used log rng = Ok ((res, log'), rng') ->
    exists flags,
      log' = log ++ flags /\
      (Forall (fun f => f = false) flags ->
       (forall a b, In a alts -> In b (alt_benefits a) -> set_In b used) ->
       (forall i j a1 a2, (i < j)%nat ->
          nth_error alts i = Some a1 -> nth_error alts j = Some a2 ->
          forall b, In b (alt_benefits a1) -> ~ In b (alt_benefits a2)) ->
       forall i j a1 a2, (i < j)%nat ->
         nth_error res i = Some a1 -> nth_error res j = Some a2 ->
         forall b, In b (alt_benefits a1) -> ~ In b (alt_benefits a2)).
Proof.
  induction alt_ids as [|id ids IH]; intros alts used log rng res log' rng' H.
  - cbn in H. injection H as <- <- <-. exists []. split; [now rewrite app_nil_r|].
    intros _ _ Hpair. exact Hpair.
  - cbn [question_loop_log] in H.
    apply bind_Ok in H as (bundle & r1 & Hb & H).
    apply bind_Ok in H as (label & r2 & Hc & H).
    apply IH in H as (flags & -> & Hrest).
    exists (fallback_taken d used :: flags). split; [now rewrite <- app_assoc|].
    intros Hflags Hused Hpair. inversion Hflags as [|? ? Hf Hflags']; subst.
    apply generate_random_bundle_inv in Hb as (_ & _ & rest & Hperm).
    assert (Hfresh : forall b, In b bundle -> ~ set_In b used).
    { intros b Hin. assert (Hp : In b (draw_pool d used)).
      { eapply Permutation_in; [symmetry; exact Hperm|].
        apply in_or_app. now left. }
      unfold draw_pool in Hp. unfold fallback_taken in Hf. rewrite Hf in Hp.
      unfold available_of in Hp. apply filter_In in Hp as [_ Hp].
      apply negb_true_iff in Hp. intros Hu.
      apply (set_mem_correct2 str_eq_dec) in Hu. congruence. }
    apply Hrest; [assumption| |].
    + intros a b Ha Hb. apply set_update_In.
      apply in_app_or in Ha as [Ha|[<-|[]]].
      * left. eapply Hused; eassumption.
      * now right.
    + intros i j a1 a2 Hij H1 H2 b Hb1 Hb2.
      destruct (Nat.lt_ge_cases j (length alts)) as [Hj|Hj].
      * rewrite nth_error_app1 in H1, H2 by lia.
        exact (Hpair i j a1 a2 Hij H1 H2 b Hb1 Hb2).
      * rewrite nth_error_app2 in H2 by assumption.
        destruct (j - length alts)%nat as [|[|n]] eqn:E; cbn in H2;
          try discriminate. injection H2 as <-. cbn in Hb2.
        assert (Hi : (i < length alts)%nat) by lia.
        rewrite nth_error_app1 in H1 by assumption.
        apply (Hfresh b Hb2). eapply Hused; [|exact Hb1].
        eapply nth_error_In; eassumption.
Qed.

Lemma question_loop_log_lengths (d : ConjointSurveyDesigner) :
  forall alt_ids alts used log rng res log' rng',
    question_loop_log d alt_ids alts used log rng = Ok ((res, log'), rng') ->
    length res = (length alts + length alt_ids)%nat /\
    length log' = (length log + length alt_ids)%nat.
Proof.
  induction alt_ids as [|id ids IH]; intros alts used log rng res log' rng' H.
  - cbn in H. injection H as <- <- <-. cbn. lia.
  - cbn [question_loop_log] in H.
    apply bind_Ok in H as (bundle & r1 & Hb & H).
    apply bind_Ok in H as (label & r2 & Hc & H).
    apply IH in H as [H1 H2]. rewrite H1, H2, !length_app. cbn. lia.
Qed.

(** C5: when no draw of a question fell back to the full catalog, any two
    distinct alternatives of the question have disjoint benefit sets. *)
Theorem no_fallback_disjoint (d : ConjointSurveyDesigner) qid rng q log rng' :
  generate_question_log d qid rng = Ok ((q, log), rng') ->
  Forall (fun fell_back => fell_back = false) log ->
  generate_question d qid rng = Ok (q, rng') /\
  length log = length (alternatives q) /\
  forall i j a1 a2, i <> j ->
    nth_error (alternatives q) i = Some a1 ->
    nth_error (alternatives q) j = Some a2 ->
    forall b, In b (alt_benefits a1) -> ~ In b (alt_benefits a2).
Proof.
  intros H Hlog. split; [eapply generate_question_log_erase; eassumption|].
  unfold generate_question_log in H.
  apply bind_Ok in H as ([alts log'] & r1 & Hq & H). injection H as <- <- <-.
  cbn [fst snd alternatives] in *.
  destruct (question_loop_log_lengths d _ _ _ _ _ _ _ _ Hq) as [Hl1 Hl2].
  destruct (question_loop_log_disjoint d _ _ _ _ _ _ _ _ Hq)
    as (flags & -> & Hdis).
  cbn [app] in *. split; [cbn in Hl1, Hl2; congruence|].
  - assert (Hlt : forall i j a1 a2, (i < j)%nat ->
              nth_error alts i = Some a1 -> nth_error alts j = Some a2 ->
              forall b, In b (alt_benefits a1) -> ~ In b (alt_benefits a2)).
    { apply Hdis; [assumption| |].
      - intros a b [].
      - intros i j a1 a2 _ Hn. destruct i; discriminate. }
    intros i j a1 a2 Hij H1 H2 b Hb1 Hb2.
    destruct (Nat.lt_gt_cases i j) as [Hc _]. destruct (Hc Hij) as [Hl|Hl].
    + exact (Hlt i j a1 a2 Hl H1 H2 b Hb1 Hb2).
    + exact (Hlt j i a2 a1 Hl H2 H1 b Hb2 Hb1).
Qed.

Lemma no_fallback_disjoint_witness :
  generate_question designer4 1 [0; 0; 1; 0]%nat
  = Ok (mkQuestion 1 [mkAlternative (py "A") [py "A"; py "D"];
                      mkAlternative (py "B") [py "C"; py "B"]], []) /\
  ~ In (py "D") [py "C"; py "B"].
Proof.
  destruct (no_fallback_disjoint designer4 1 [0; 0; 1; 0]%nat
              (mkQuestion 1 [mkAlternative (py "A") [py "A"; py "D"];
                             mkAlternative (py "B") [py "C"; py "B"]])
              [false; false] [] eq_refl
              (Forall_cons _ eq_refl (Forall_cons _ eq_refl (Forall_nil _))))
    as (Hrun & _ & Hdis).
  split; [exact Hrun|].
  apply (Hdis 0%nat 1%nat _ _ (O_S 0) eq_refl eq_refl (py "D")).
  right. now left.
Defined.

(* ------------------------------------------------------------------ *)
(** ** Facts about sorting and grouping *)

Section SortFacts.
Variable A : Type.
Variable key : A -> float.

Lemma insert_desc_perm (e : A) (l : list A) :
  Permutation (insert_desc key e l) (e :: l).
Proof.
  induction l as [|h t IH]; cbn; [reflexivity|].
  destruct (fltb (key e) (key h)); [|reflexivity].
  rewrite IH. apply perm_swap.
Qed.

Lemma sort_desc_perm (l : list A) : Permutation (sort_desc key l) l.
Proof.
  induction l as [|h t IH]; cbn; [reflexivity|].
  rewrite insert_desc_perm. now constructor.
Qed.

Lemma sort_values_desc_perm (l : list A) :
  Permutation (sort_values_desc key l) l.
Proof.
  unfold sort_values_desc. rewrite sort_desc_perm.
  induction l as [|h t IH]; cbn; [reflexivity|].
  unfold notna. destruct (is_nan (key h)); cbn.
  - rewrite <- Permutation_middle. now constructor.
  - now constructor.
Qed.

Lemma sort_values_desc_In (l : list A) (e : A) :
  In e (sort_values_desc key l) <-> In e l.
Proof.
  split; apply Permutation_in;
    [apply sort_values_desc_perm | symmetry; apply sort_values_desc_perm].
Qed.
End SortFacts.

Lemma insert_key_perm (k : str) (l : list str) :
  Permutation (insert_key k l) (k :: l).
Proof.
  induction l as [|h t IH]; cbn; [reflexivity|].
  destruct (str_compare k h); try reflexivity.
  rewrite IH. apply perm_swap.
Qed.

Lemma group_keys_perm (obs : list Observation) :
  Permutation (group_keys obs) (nodup str_eq_dec (map o_benefit obs)).
Proof.
  unfold group_keys. induction (nodup str_eq_dec (map o_benefit obs)) as [|h t IH];
    cbn; [reflexivity|].
  rewrite insert_key_perm. now constructor.
Qed.

Lemma group_keys_In (obs : list Observation) (k : str) :
  In k (group_keys obs) <-> In k (map o_benefit obs).
Proof.
  split; intros H.
  - apply (nodup_In str_eq_dec). eapply Permutation_in; [apply group_keys_perm|].
    assumption.
  - eapply Permutation_in; [symmetry; apply group_keys_perm|].
    now apply nodup_In.
Qed.

Lemma group_keys_NoDup (obs : list Observation) : NoDup (group_keys obs).
Proof.
  eapply Permutation_NoDup; [symmetry; apply group_keys_perm|].
  apply NoDup_nodup.
Qed.

Lemma str_eqb_eq (a b : str) : str_eqb a b = true <-> a = b.
Proof. unfold str_eqb. destruct (str_eq_dec a b); split; congruence. Qed.

Lemma str_eqb_refl (a : str) : str_eqb a a = true.
Proof. now apply str_eqb_eq. Qed.

(** In a table whose keys are distinct, looking a key up finds the row
    that carries it. *)
Lemma find_score_In (sc : list ScoreRow) (b : str) (e : ScoreRow) :
  NoDup (map benefit sc) -> In e sc -> benefit e = b ->
  find_score b sc = Some e.
Proof.
  unfold find_score. induction sc as [|h t IH]; intros Hnd Hin Hb; [contradiction|].
  cbn in *. inversion Hnd as [|? ? Hh Ht]; subst.
  destruct Hin as [->|Hin].
  - now rewrite str_eqb_refl.
  - destruct (str_eqb (benefit h) (benefit e)) eqn:E.
    + apply str_eqb_eq in E. exfalso. apply Hh. rewrite E. now apply in_map.
    + now apply IH.
Qed.

Lemma find_score_None (sc : list ScoreRow) (b : str) :
  ~ In b (map benefit sc) -> find_score b sc = None.
Proof.
  unfold find_score. induction sc as [|h t IH]; intros Hn; [reflexivity|].
  cbn in *. destruct (str_eqb (benefit h) b) eqn:E.
  - apply str_eqb_eq in E. tauto.
  - apply IH. tauto.
Qed.

(* ------------------------------------------------------------------ *)
(** ** The scorecard, row by row *)

(** The scorecard computed from a non-empty long frame: one row per
    distinct benefit observed, holding the group's sum and count. *)
Lemma scorecard_rows (a : ConjointAnalyzer) (merged : list MergedRow) :
  merged_df a = Some merged -> data_long merged <> [] ->
  let obs := data_long merged in
  let rates := map choice_rate (benefit_stats obs) in
  exists sc,
    calculate_preference_scores a
    = Ok (sc, mkAnalyzer (design_df a) (response_df a) (merged_df a) (Some sc)) /\
    Permutation (map benefit sc) (group_keys obs) /\
    Permutation (map choice_rate sc) rates /\
    forall e, In e sc ->
      times_chosen e = sum_chosen (group_of obs (benefit e)) /\
      times_shown e = len (group_of obs (benefit e)) /\
      choice_rate e = fdiv (of_Z (times_chosen e)) (of_Z (times_shown e)) /\
      In (choice_rate e) rates /\
      utility_score e
      = fmul (fdiv (fsub (choice_rate e) (series_mean rates)) (series_std rates))
             (Fin 100) /\
      preference_pct e = fmul (choice_rate e) (Fin 100).
Proof.
  intros Hm Hne. cbv zeta. unfold calculate_preference_scores. rewrite Hm.
  destruct (data_long merged) as [|o obs'] eqn:Eobs; [contradiction|].
  clear Eobs Hne. set (obs := o :: obs').
  set (rates := map choice_rate (benefit_stats obs)).
  eexists. split; [reflexivity|]. split; [|split].
  - rewrite sort_values_desc_perm.
    unfold with_preference_pct, with_utility, benefit_stats.
    rewrite !map_map. cbn. now rewrite map_id.
  - rewrite sort_values_desc_perm.
    unfold with_preference_pct, with_utility. now rewrite !map_map.
  - intros e He. apply sort_values_desc_In in He.
    unfold with_preference_pct, with_utility in He.
    rewrite map_map in He. apply in_map_iff in He as (e0 & <- & He0).
    cbn. fold rates.
    assert (Hr : In (choice_rate e0) rates) by (now apply in_map).
    unfold benefit_stats in He0. apply in_map_iff in He0 as (k & <- & _).
    cbn in *. auto 10.
Qed.

(* ------------------------------------------------------------------ *)
(** ** Merging and counting *)

Lemma merge_rows_app (l1 l2 : list DesignRow) (response : list ResponseRow) :
  merge_rows (l1 ++ l2) response
  = merge_rows l1 response ++ merge_rows l2 response.
Proof. unfold merge_rows, left_merge. now rewrite flat_map_app, map_app. Qed.

Lemma filter_nil {A : Type} (f : A -> bool) (l : list A) :
  (forall x, In x l -> f x = false) -> filter f l = [].
Proof.
  induction l as [|h t IH]; intros H; [reflexivity|]. cbn.
  rewrite (H h (or_introl eq_refl)). apply IH. intros x Hx. apply H. now right.
Qed.

Lemma cell_eqb_None (c : cell) : cell_eqb c None = false.
Proof. now destruct c. Qed.

Lemma merge_rows_unmatched (d : DesignRow) (response : list ResponseRow) :
  (forall r, In r response -> key_match d r = false) ->
  merge_rows [d] response = [mkMergedRow d None 0].
Proof.
  intros H. unfold merge_rows, left_merge. cbn.
  rewrite (filter_nil _ _ H). cbn. now rewrite cell_eqb_None.
Qed.

Lemma data_long_app (m1 m2 : list MergedRow) :
  data_long (m1 ++ m2) = data_long m1 ++ data_long m2.
Proof. unfold data_long. apply flat_map_app. Qed.

Lemma group_of_app (o1 o2 : list Observation) (b : str) :
  group_of (o1 ++ o2) b = group_of o1 b ++ group_of o2 b.
Proof. unfold group_of. apply filter_app. Qed.

Lemma sum_chosen_app (g1 g2 : list Observation) :
  sum_chosen (g1 ++ g2) = sum_chosen g1 + sum_chosen g2.
Proof.
  unfold sum_chosen. induction g1 as [|h t IH]; cbn; [reflexivity|].
  cbn in IH. rewrite IH. lia.
Qed.

Lemma len_app {A : Type} (l1 l2 : list A) : len (l1 ++ l2) = len l1 + len l2.
Proof. unfold len. rewrite length_app. lia. Qed.

(** The observations of one unflagged row: one per shown benefit, none
    chosen. *)
Lemma group_of_unflagged (xs : list str) (rid qid : Z) (b : str) :
  let g := group_of (map (fun x => mkObservation x 0 rid qid) xs) b in
  len g = Z.of_nat (count_occ str_eq_dec xs b) /\ sum_chosen g = 0.
Proof.
  cbv zeta. induction xs as [|x xs [IH1 IH2]]; [now split|].
  unfold group_of, len, sum_chosen in *. cbn [map filter o_benefit count_occ].
  destruct (str_eq_dec x b) as [->|Hne].
  - rewrite str_eqb_refl. cbn [length map fold_right o_chosen].
    rewrite IH2, !Nat2Z.inj_succ, IH1. now split.
  - replace (str_eqb x b) with false; [now split|].
    symmetry. destruct (str_eqb x b) eqn:E; [|reflexivity].
    apply str_eqb_eq in E. contradiction.
Qed.

Lemma group_of_unflagged_row (d : DesignRow) (c : cell) (b : str) :
  let g := group_of (data_long [mkMergedRow d c 0]) b in
  len g = Z.of_nat (count_occ str_eq_dec (shown_benefits (benefit_cells d)) b) /\
  sum_chosen g = 0.
Proof.
  cbv zeta. unfold data_long. cbn [flat_map m_design chosen]. rewrite app_nil_r.
  apply group_of_unflagged.
Qed.

(** The two counts the scorecard reports for a benefit are the number of
    observations of it and the number of those that are flagged. *)
Lemma analyze_counts (design : list DesignRow) (response : list ResponseRow)
    (b : str) :
  let g := group_of (data_long (merge_rows design response)) b in
  times_shown_of (analyze design response) b = len g /\
  times_chosen_of (analyze design response) b = sum_chosen g.
Proof.
  cbv zeta. unfold analyze, merge_data, new_analyzer.
  cbn [snd design_df response_df results_df].
  set (merged := merge_rows design response).
  destruct (data_long merged) as [|o obs'] eqn:E.
  - unfold calculate_preference_scores. cbn [merged_df].
    rewrite E. now split.
  - destruct (scorecard_rows (mkAnalyzer design response (Some merged) None)
                merged eq_refl) as (sc & Hrun & Hperm & _ & Hrows).
    { rewrite E. discriminate. }
    rewrite Hrun. unfold times_shown_of, times_chosen_of.
    rewrite <- E in *. clear E o obs'.
    assert (Hnd : NoDup (map benefit sc)).
    { eapply Permutation_NoDup; [symmetry; exact Hperm|]. apply group_keys_NoDup. }
    destruct (in_dec str_eq_dec b (map benefit sc)) as [Hin|Hout].
    + apply in_map_iff in Hin as (e & Hb & He).
      rewrite (find_score_In sc b e Hnd He Hb).
      destruct (Hrows e He) as (H1 & H2 & _). rewrite Hb in *. now split.
    + rewrite (find_score_None sc b Hout).
      assert (Hg : group_of (data_long merged) b = []).
      { unfold group_of. apply filter_nil. intros o' Ho'.
        destruct (str_eqb (o_benefit o') b) eqn:Eb; [|reflexivity].
        apply str_eqb_eq in Eb. exfalso. apply Hout.
        eapply Permutation_in; [symmetry; exact Hperm|].
        apply group_keys_In. rewrite <- Eb. now apply in_map. }
      rewrite Hg. now split.
Qed.

(** C6: a design row whose (respondent, question) pair has no response row
    is kept by the merge exactly once, with a missing [chosen_alternative];
    every merged row of that pair has [chosen = 0]; and in the scorecard the
    row adds one to [times_shown] for each of its benefits and nothing to
    [times_chosen]. *)
Theorem unmatched_rows_counted (design1 : list DesignRow) (d : DesignRow)
    (design2 : list DesignRow) (response : list ResponseRow) :
  (forall r, In r response -> key_match d r = false) ->
  let full := design1 ++ d :: design2 in
  let without := design1 ++ design2 in
  merge_rows full response
  = merge_rows design1 response ++ mkMergedRow d None 0
    :: merge_rows design2 response /\
  (forall m, In m (merge_rows full response) ->
     respondent_id (m_design m) = respondent_id d ->
     question_id (m_design m) = question_id d ->
     chosen m = 0 /\ m_chosen_alternative m = None) /\
  forall b,
    times_shown_of (analyze full response) b
    = times_shown_of (analyze without response) b
      + Z.of_nat (count_occ str_eq_dec (shown_benefits (benefit_cells d)) b) /\
    times_chosen_of (analyze full response) b
    = times_chosen_of (analyze without response) b.
Proof.
  intros Hno full without.
  assert (Hsplit : merge_rows full response
                   = merge_rows design1 response ++ mkMergedRow d None 0
                     :: merge_rows design2 response).
  { unfold full. change (d :: design2) with ([d] ++ design2).
    now rewrite !merge_rows_app, (merge_rows_unmatched d response Hno). }
  split; [exact Hsplit|]. split.
  - intros m Hin Hr Hq. unfold merge_rows in Hin.
    apply in_map_iff in Hin as ([dr c] & <- & Hin). cbn in Hr, Hq.
    unfold left_merge in Hin. apply in_flat_map in Hin as (dr' & _ & Hin).
    destruct (filter (key_match dr') response) as [|r rs] eqn:F.
    + destruct Hin as [Hin|[]]. injection Hin as <- <-. cbn.
      now rewrite cell_eqb_None.
    + exfalso. apply in_map_iff in Hin as (r' & Heq & Hr').
      injection Heq as -> _. rewrite <- F in Hr'.
      apply filter_In in Hr' as [Hr' Hk].
      assert (Hsame : key_match dr r' = key_match d r')
        by (unfold key_match; now rewrite Hr, Hq).
      rewrite Hsame, (Hno r' Hr') in Hk. discriminate.
  - intros b.
    destruct (analyze_counts full response b) as [-> ->].
    destruct (analyze_counts without response b) as [-> ->].
    rewrite Hsplit. unfold without. rewrite merge_rows_app.
    change (mkMergedRow d None 0 :: merge_rows design2 response)
      with ([mkMergedRow d None 0] ++ merge_rows design2 response).
    rewrite !data_long_app, !group_of_app, !len_app, !sum_chosen_app.
    destruct (group_of_unflagged_row d None b) as [-> ->]. lia.
Qed.

Lemma unmatched_rows_counted_witness :
  times_shown_of (analyze design_xy []) (py "X")
  = times_shown_of (analyze [mkDesignRow 1 1 (Some (py "B")) [Some (py "Y")]] [])
                   (py "X") + 1 /\
  times_chosen_of (analyze design_xy []) (py "X")
  = times_chosen_of (analyze [mkDesignRow 1 1 (Some (py "B")) [Some (py "Y")]] [])
                    (py "X").
Proof.
  exact (proj2 (proj2
           (unmatched_rows_counted []
              (mkDesignRow 1 1 (Some (py "A")) [Some (py "X")])
              [mkDesignRow 1 1 (Some (py "B")) [Some (py "Y")]] []
              (fun r (H : In r []) => match H with end)))
         (py "X")).
Defined.

(* ------------------------------------------------------------------ *)
(** ** At most one chosen alternative per answered question *)

Lemma map_flat_map {A B C : Type} (g : B -> C) (f : A -> list B) (l : list A) :
  map g (flat_map f l) = flat_map (fun x => map g (f x)) l.
Proof.
  induction l as [|h t IH]; cbn; [reflexivity|]. now rewrite map_app, IH.
Qed.

(** Lists tagged by distinct keys concatenate without repetition. *)
Lemma NoDup_flat_map_keyed {A B K : Type} (f : A -> list B) (ka : A -> K)
    (kb : B -> K) (l : list A) :
  NoDup (map ka l) ->
  (forall x, In x l -> NoDup (f x)) ->
  (forall x y, In x l -> In y (f x) -> kb y = ka x) ->
  NoDup (flat_map f l).
Proof.
  induction l as [|h t IH]; intros Hk Hf Htag; cbn; [constructor|].
  inversion Hk as [|? ? Hh Ht]; subst.
  apply NoDup_app.
  - apply Hf. now left.
  - apply IH; [assumption | |]; intros; [apply Hf | eapply Htag]; eauto;
      now right.
  - intros y Hy Hy'. apply in_flat_map in Hy' as (x & Hx & Hyx).
    apply Hh. rewrite <- (Htag h y (or_introl eq_refl) Hy).
    rewrite (Htag x y (or_intror Hx) Hyx). now apply in_map.
Qed.

Lemma NoDup_map_eq {A K : Type} (f : A -> K) (l : list A) (x y : A) :
  NoDup (map f l) -> In x l -> In y l -> f x = f y -> x = y.
Proof.
  induction l as [|h t IH]; intros Hnd Hx Hy Hf; [contradiction|].
  inversion Hnd as [|? ? Hh Ht]; subst. cbn in Hx, Hy.
  destruct Hx as [->|Hx], Hy as [->|Hy]; try reflexivity.
  - exfalso. apply Hh. rewrite Hf. now apply in_map.
  - exfalso. apply Hh. rewrite <- Hf. now apply in_map.
  - now apply IH.
Qed.

(** A filter whose survivors all share one key keeps at most one row of a
    table with distinct keys. *)
Lemma filter_at_most_one {A K : Type} (f : A -> K) (P : A -> bool) (l : list A) :
  NoDup (map f l) ->
  (forall x y, In x l -> In y l -> P x = true -> P y = true -> f x = f y) ->
  (length (filter P l) <= 1)%nat.
Proof.
  intros Hnd Hsame.
  assert (Hnd' : NoDup (map f (filter P l))).
  { clear Hsame. induction l as [|h t IH]; cbn; [constructor|].
    inversion Hnd as [|? ? Hh Ht]; subst.
    destruct (P h); [|now apply IH]. cbn. constructor; [|now apply IH].
    intros Hin. apply Hh. apply in_map_iff in Hin as (x & Hx & Hin).
    apply filter_In in Hin as [Hin _]. rewrite <- Hx. now apply in_map. }
  destruct (filter P l) as [|x [|y rest]] eqn:E; cbn; try lia.
  exfalso.
  assert (Hx : In x (filter P l)) by (rewrite E; now left).
  assert (Hy : In y (filter P l)) by (rewrite E; right; now left).
  apply filter_In in Hx as [Hx Px]. apply filter_In in Hy as [Hy Py].
  cbn in Hnd'. inversion Hnd' as [|? ? Hh _]; subst.
  apply Hh. left. symmetry. now apply Hsame.
Qed.

Lemma chr_injective (i j : Z) (s : str) : chr i = Ok s -> chr j = Ok s -> i = j.
Proof.
  intros Hi Hj. apply chr_inv in Hi as [Hi ->]. apply chr_inv in Hj as [Hj E].
  injection E as E. lia.
Qed.

(** The labels of one question are pairwise distinct. *)
Lemma labels_NoDup (d : ConjointSurveyDesigner) (ids : list Z)
    (alts : list Alternative) :
  Forall2 (alternative_ok d) ids alts -> NoDup ids ->
  NoDup (map alternative_id alts).
Proof.
  induction 1 as [|i a ids alts [Hc _] HF IH]; intros Hnd; cbn; [constructor|].
  inversion Hnd as [|? ? Hi Hids]; subst. constructor; [|now apply IH].
  intros Hin. apply in_map_iff in Hin as (a' & Heq & Ha').
  destruct (Forall2_In_r HF Ha') as (i' & Hi' & Hc' & _).
  rewrite Heq in Hc'. assert (65 + i' = 65 + i) by (eapply chr_injective; eassumption).
  apply Hi. now replace i with i' by lia.
Qed.

(** The exported design has one row per (respondent, question, label). *)
Lemma export_keys_NoDup (d : ConjointSurveyDesigner) (n : Z)
    (surveys : list Survey) :
  design_ok d n surveys -> NoDup (map row_key (export_to_csv d surveys)).
Proof.
  unfold design_ok, export_to_csv. intros Hd. rewrite map_flat_map.
  apply NoDup_flat_map_keyed
    with (ka := s_respondent_id) (kb := fun k : Z * Z * cell => fst (fst k)).
  - assert (E : map s_respondent_id surveys = py_range 1 (n + 1)).
    { apply Forall2_map_r. eapply Forall2_impl; [|exact Hd].
      now intros rid s [H _]. }
    rewrite E. apply py_range_NoDup.
  - intros s Hs. destruct (Forall2_In_r Hd Hs) as (rid & _ & _ & Hqs).
    rewrite map_flat_map.
    apply NoDup_flat_map_keyed
      with (ka := q_question_id) (kb := fun k : Z * Z * cell => snd (fst k)).
    + assert (E : map q_question_id (questions s)
                  = py_range 1 (n_questions d + 1)).
      { apply Forall2_map_r. eapply Forall2_impl; [|exact Hqs].
        now intros qid q [H _]. }
      rewrite E. apply py_range_NoDup.
    + intros q Hq. destruct (Forall2_In_r Hqs Hq) as (qid & _ & _ & Halts).
      rewrite map_map. unfold row_key. cbn.
      change (fun x : Alternative =>
                (s_respondent_id s, q_question_id q, Some (alternative_id x)))
        with (fun x : Alternative =>
                (fun l : str => (s_respondent_id s, q_question_id q, Some l))
                  (alternative_id x)).
      rewrite <- map_map. apply Injective_map_NoDup.
      * intros x y E. now injection E.
      * eapply labels_NoDup; [exact Halts | apply py_range_NoDup].
    + intros q k _ Hk. apply in_map_iff in Hk as (row & <- & Hrow).
      apply in_map_iff in Hrow as (alt & <- & _). reflexivity.
  - intros s k _ Hk. apply in_map_iff in Hk as (row & <- & Hrow).
    apply in_flat_map in Hrow as (q & _ & Hrow).
    apply in_map_iff in Hrow as (alt & <- & _). reflexivity.
Qed.

Lemma key_match_response_key (d : DesignRow) (r : ResponseRow) :
  key_match d r = true -> response_key r = (respondent_id d, question_id d).
Proof.
  unfold key_match, response_key. intros H.
  apply andb_true_iff in H as [H1 H2].
  apply Z.eqb_eq in H1, H2. now rewrite H1, H2.
Qed.

Lemma cell_eqb_eq (a b : cell) : cell_eqb a b = true -> a = b.
Proof.
  destruct a as [x|], b as [y|]; cbn; try discriminate.
  intros H. apply str_eqb_eq in H. now subst.
Qed.

(** A merged row comes from a design row; its flag is 0 or 1, and a flag
    of 1 means the response row of its key names its alternative. *)
Lemma merge_rows_inv (design : list DesignRow) (response : list ResponseRow)
    (m : MergedRow) :
  In m (merge_rows design response) ->
  In (m_design m) design /\ 0 <= chosen m <= 1 /\
  (chosen m = 1 ->
   exists r, In r response /\ key_match (m_design m) r = true /\
             alternative (m_design m) = chosen_alternative r).
Proof.
  unfold merge_rows, left_merge. intros Hin.
  apply in_map_iff in Hin as ([dr c] & <- & Hin). cbn [m_design chosen].
  apply in_flat_map in Hin as (dr' & Hdr & Hin).
  assert (Hc : dr = dr' /\
               (c = None \/ exists r, In r response /\ key_match dr' r = true /\
                                      c = chosen_alternative r)).
  { destruct (filter (key_match dr') response) as [|r rs] eqn:F.
    - destruct Hin as [Hin|[]]. injection Hin as <- <-. auto.
    - apply in_map_iff in Hin as (r' & Heq & Hr'). injection Heq as <- <-.
      rewrite <- F in Hr'. apply filter_In in Hr' as [Hr' Hk]. eauto 6. }
  destruct Hc as [-> Hc]. split; [assumption|]. split.
  - destruct (cell_eqb (alternative dr') c); lia.
  - destruct (cell_eqb (alternative dr') c) eqn:E; [|discriminate]. intros _.
    destruct Hc as [->|(r & Hr & Hk & ->)].
    + now rewrite cell_eqb_None in E.
    + apply cell_eqb_eq in E. now exists r.
Qed.

(** With one response row per key, the merge keeps the design row for
    row. *)
Lemma merge_rows_design (design : list DesignRow) (response : list ResponseRow) :
  NoDup (map response_key response) ->
  map m_design (merge_rows design response) = design.
Proof.
  intros Hnd. induction design as [|d design IH]; [reflexivity|].
  change (d :: design) with ([d] ++ design).
  rewrite merge_rows_app, map_app, IH. f_equal.
  unfold merge_rows, left_merge. cbn [flat_map]. rewrite app_nil_r.
  assert (Hlen : (length (filter (key_match d) response) <= 1)%nat).
  { apply filter_at_most_one with (f := response_key); [assumption|].
    intros x y _ _ Hx Hy.
    now rewrite (key_match_response_key d x Hx), (key_match_response_key d y Hy). }
  destruct (filter (key_match d) response) as [|r [|r' rs]]; cbn in *;
    [reflexivity | reflexivity | lia].
Qed.

Lemma sum_chosen_bounds (g : list Observation) :
  (forall o, In o g -> 0 <= o_chosen o <= 1) -> 0 <= sum_chosen g <= len g.
Proof.
  unfold sum_chosen, len. induction g as [|h t IH]; intros H; cbn [map fold_right length].
  - lia.
  - pose proof (H h (or_introl eq_refl)).
    assert (0 <= fold_right Z.add 0 (map o_chosen t) <= Z.of_nat (length t))
      by (apply IH; intros o Ho; apply H; now right).
    lia.
Qed.

(** C9: for a generated design and responses with at most one row per
    (respondent, question), the labels of each question are pairwise
    distinct, at most one merged row of any pair is flagged as chosen, and
    no scorecard row has [times_chosen] above [times_shown]. *)
Theorem at_most_one_chosen (d : ConjointSurveyDesigner) (n_respondents : Z)
    (rng : Rng) (surveys : list Survey) (rng' : Rng)
    (response : list ResponseRow) :
  generate_survey d n_respondents rng = Ok (surveys, rng') ->
  NoDup (map response_key response) ->
  let design := export_to_csv d surveys in
  (forall s q, In s surveys -> In q (questions s) ->
     NoDup (map alternative_id (alternatives q))) /\
  (forall rid qid,
     (length (chosen_rows rid qid (merge_rows design response)) <= 1)%nat) /\
  (forall sc a', analyze design response = Ok (sc, a') ->
     forall e, In e sc -> 0 <= times_chosen e <= times_shown e).
Proof.
  intros Hgen Hresp design.
  pose proof (generate_survey_inv d _ _ _ _ Hgen) as Hok.
  split; [|split].
  - intros s q Hs Hq.
    destruct (Forall2_In_r Hok Hs) as (rid & _ & _ & Hqs).
    destruct (Forall2_In_r Hqs Hq) as (qid & _ & _ & Halts).
    eapply labels_NoDup; [exact Halts | apply py_range_NoDup].
  - intros rid qid. unfold chosen_rows.
    apply filter_at_most_one with (f := fun m => row_key (m_design m)).
    + rewrite <- map_map, (merge_rows_design design response Hresp).
      apply (export_keys_NoDup d n_respondents surveys Hok).
    + intros x y Hx Hy Px Py.
      apply andb_true_iff in Px as [Px Cx]. apply andb_true_iff in Px as [Rx Qx].
      apply andb_true_iff in Py as [Py Cy]. apply andb_true_iff in Py as [Ry Qy].
      apply Z.eqb_eq in Rx, Qx, Cx, Ry, Qy, Cy.
      destruct (merge_rows_inv design response x Hx) as (_ & _ & Hcx).
      destruct (merge_rows_inv design response y Hy) as (_ & _ & Hcy).
      destruct (Hcx Cx) as (rx & Hrx & Kx & Ax).
      destruct (Hcy Cy) as (ry & Hry & Ky & Ay).
      assert (rx = ry).
      { apply (NoDup_map_eq response_key response); try assumption.
        rewrite (key_match_response_key _ _ Kx), (key_match_response_key _ _ Ky).
        congruence. }
      subst ry. unfold row_key. congruence.
  - intros sc a' Hrun e He. unfold analyze, merge_data, new_analyzer in Hrun.
    cbn [snd design_df response_df results_df] in Hrun.
    set (merged := merge_rows design response) in *.
    assert (Hne : data_long merged <> []).
    { intros E. unfold calculate_preference_scores in Hrun. cbn [merged_df] in Hrun.
      rewrite E in Hrun. discriminate. }
    destruct (scorecard_rows (mkAnalyzer design response (Some merged) None)
                merged eq_refl Hne) as (sc' & Hrun' & _ & _ & Hrows).
    rewrite Hrun in Hrun'. injection Hrun' as <- _.
    destruct (Hrows e He) as (-> & -> & _).
    apply sum_chosen_bounds. intros o Ho. unfold group_of in Ho.
    apply filter_In in Ho as [Ho _]. unfold data_long in Ho.
    apply in_flat_map in Ho as (m & Hm & Ho).
    apply in_map_iff in Ho as (b & <- & _). cbn.
    now destruct (merge_rows_inv design response m Hm) as (_ & Hb & _).
Qed.

Lemma at_most_one_chosen_witness :
  (length (chosen_rows 1 1 (merge_rows (export_to_csv designer4 surveys4)
                                        response4)) <= 1)%nat /\
  exists sc a',
    analyze (export_to_csv designer4 surveys4) response4 = Ok (sc, a') /\
    forall e, In e sc -> 0 <= times_chosen e <= times_shown e.
Proof.
  assert (Hnd : NoDup (map response_key response4)).
  { cbn. repeat constructor; cbn; intuition discriminate. }
  pose proof (at_most_one_chosen designer4 2 draws8 surveys4 [] response4
                                 eq_refl Hnd) as (_ & Hone & Hle).
  split; [exact (Hone 1 1)|].
  eexists. eexists. split; [reflexivity|].
  intros e He. eapply Hle; [reflexivity | exact He].
Defined.

(* ------------------------------------------------------------------ *)
(** ** Determinism of the scoring *)



(* ------------------------------------------------------------------ *)
(** ** Standardising a column without variance *)

Section FloatFacts.
Local Open Scope R_scope.


Lemma fdiv_Fin (a b : R) : b <> 0 -> fdiv (Fin a) (Fin b) = Fin (a / b).
Proof.
  intros Hb. unfold fdiv, sign_of.
  destruct (Req_dec_T b 0); [contradiction|]. now destruct (Rlt_dec 0 b).
Qed.



Lemma fsum_Fin_from (rs : list R) (acc : R) :
  fold_left fadd (map Fin rs) (Fin acc) = Fin (fold_left Rplus rs acc).
Proof. revert acc. induction rs as [|r rs IH]; intros acc; cbn; [reflexivity | apply IH]. Qed.




Lemma of_Z_nat (m : nat) : of_Z (Z.of_nat m) = Fin (INR m).
Proof. unfold of_Z. now rewrite INR_IZR_INZ. Qed.



End FloatFacts.


(** Every group has an observation, so every choice rate is a real. *)
Lemma choice_rate_Fin (obs : list Observation) (k : str) :
  In k (group_keys obs) ->
  exists c : R,
    fdiv (of_Z (sum_chosen (group_of obs k))) (of_Z (len (group_of obs k)))
    = Fin c.
Proof.
  intros Hk. apply group_keys_In in Hk. apply in_map_iff in Hk as (o & Ho & Hin).
  assert (Hg : In o (group_of obs k)).
  { unfold group_of. apply filter_In. split; [assumption|]. now apply str_eqb_eq. }
  unfold of_Z. eexists. apply fdiv_Fin.
  apply not_0_IZR. unfold len. destruct (group_of obs k); [contradiction|].
  cbn [length]. lia.
Qed.





(* ------------------------------------------------------------------ *)
(** ** The optional logit estimator *)









(* ------------------------------------------------------------------ *)
(** ** The scenarios of the specification *)

(** A and B show X and Y; the respondent chose A. *)
Example scenario_merge_flags :
  map chosen (merge_rows design_xy response_a) = [1; 0].
Proof. reflexivity. Qed.

Example scenario_counts :
  times_chosen_of (analyze design_xy response_a) (py "X") = 1 /\
  times_shown_of (analyze design_xy response_a) (py "X") = 1 /\
  times_chosen_of (analyze design_xy response_a) (py "Y") = 0 /\
  times_shown_of (analyze design_xy response_a) (py "Y") = 1.
Proof.
  destruct (analyze_counts design_xy response_a (py "X")) as [-> ->].
  destruct (analyze_counts design_xy response_a (py "Y")) as [-> ->].
  repeat split.
Qed.

(** Two respondents, one question, two alternatives of two benefits on a
    catalog of four: four rows, each question using every benefit once. *)
Example scenario_design :
  generate_survey designer4 2 draws8 = Ok (surveys4, []) /\
  length (export_to_csv designer4 surveys4) = 4%nat /\
  map (fun q => flat_map alt_benefits (alternatives q))
      (flat_map questions surveys4)
  = [[py "A"; py "D"; py "C"; py "B"]; [py "D"; py "B"; py "A"; py "C"]].
Proof. repeat split. Qed.

(* ------------------------------------------------------------------ *)
(** ** More on the design generator *)

(** What holds of every bundle drawn holds of every bundle of a question. *)
Lemma question_loop_bundles (d : ConjointSurveyDesigner) (P : list str -> Prop) :
  (forall used rng bundle rng',
     generate_random_bundle d used rng = Ok (bundle, rng') -> P bundle) ->
  forall alt_ids alts used rng res rng',
    question_loop d alt_ids alts used rng = Ok (res, rng') ->
    Forall (fun a => P (alt_benefits a)) alts ->
    Forall (fun a => P (alt_benefits a)) res.
Proof.
  intros HP. induction alt_ids as [|i ids IH]; intros alts used rng res rng' H Halts.
  - cbn in H. now injection H as <- <-.
  - cbn [question_loop] in H.
    apply bind_Ok in H as (bundle & r1 & Hb & H).
    apply bind_Ok in H as (label & r2 & Hc & H).
    eapply IH; [exact H|]. apply Forall_app. split; [assumption|].
    constructor; [|constructor]. cbn. eapply HP; eassumption.
Qed.

Lemma generate_survey_bundles (d : ConjointSurveyDesigner) (P : list str -> Prop)
    (n : Z) rng surveys rng' :
  (forall used r bundle r',
     generate_random_bundle d used r = Ok (bundle, r') -> P bundle) ->
  generate_survey d n rng = Ok (surveys, rng') ->
  forall s q a, In s surveys -> In q (questions s) -> In a (alternatives q) ->
                P (alt_benefits a).
Proof.
  intros HP Hgen.
  assert (H : Forall2 (fun _ s =>
                forall q a, In q (questions s) -> In a (alternatives q) ->
                            P (alt_benefits a))
              (py_range 1 (n + 1)) surveys).
  { revert Hgen. unfold generate_survey.
    apply (for_each_inv _
             (fun (_ : Z) s =>
                forall q a, In q (questions s) -> In a (alternatives q) ->
                            P (alt_benefits a))).
    intros rid r1 s r2 _ H.
    apply bind_Ok in H as (qs & r3 & Hqs & H). injection H as <- <-. cbn.
    assert (HF : Forall2 (fun _ q => Forall (fun a => P (alt_benefits a))
                                            (alternatives q))
                         (py_range 1 (n_questions d + 1)) qs).
    { revert Hqs.
      apply (for_each_inv _
               (fun (_ : Z) q => Forall (fun a => P (alt_benefits a))
                                        (alternatives q))).
      intros qid r4 q r5 _ Hq.
      unfold generate_question in Hq.
      apply bind_Ok in Hq as (alts & r6 & Hl & Hq). injection Hq as <- <-. cbn.
      eapply question_loop_bundles; [exact HP | exact Hl | constructor]. }
    intros q a Hq Ha. destruct (Forall2_In_r HF Hq) as (qid & _ & Hall).
    rewrite Forall_forall in Hall. now apply Hall. }
  intros s q a Hs Hq Ha. destruct (Forall2_In_r H Hs) as (rid & _ & Hs').
  exact (Hs' q a Hq Ha).
Qed.

(** The size and provenance of a bundle, fallback or not. *)
Lemma generate_random_bundle_size (d : ConjointSurveyDesigner) used rng bundle rng' :
  generate_random_bundle d used rng = Ok (bundle, rng') ->
  len bundle = Z.min (items_per_alternative d) (len (benefits d)) /\
  incl bundle (benefits d) /\
  (NoDup (benefits d) -> NoDup bundle).
Proof.
  intros H. apply generate_random_bundle_inv in H as (Hit & Hlen & rest & Hperm).
  assert (Hpool : incl (draw_pool d used) (benefits d) /\
                  len (draw_pool d used) <= len (benefits d) /\
                  (NoDup (benefits d) -> NoDup (draw_pool d used)) /\
                  Z.min (items_per_alternative d) (len (draw_pool d used))
                  = Z.min (items_per_alternative d) (len (benefits d))).
  { unfold draw_pool.
    destruct (len (available_of d used) <? items_per_alternative d) eqn:E.
    - repeat split; auto using incl_refl; lia.
    - apply Z.ltb_ge in E. unfold available_of in *.
      assert (Hle : len (filter (fun b => negb (set_mem str_eq_dec b used))
                                (benefits d)) <= len (benefits d)).
      { unfold len. apply inj_le. apply filter_length_le. }
      repeat split.
      + apply incl_filter.
      + exact Hle.
      + intros Hnd. now apply NoDup_filter.
      + lia. }
  destruct Hpool as (Hincl & _ & Hnd & Hmin).
  split; [|split].
  - unfold len at 1. rewrite Hlen, Hmin. unfold len. lia.
  - intros b Hb. apply Hincl. eapply Permutation_in; [symmetry; exact Hperm|].
    apply in_or_app. now left.
  - intros Hcat. specialize (Hnd Hcat).
    eapply Permutation_NoDup in Hnd; [|exact Hperm].
    now apply NoDup_app_remove_r in Hnd.
Qed.

Lemma generated_bundle_sizes_aux (d : ConjointSurveyDesigner) (n : Z)
    rng surveys rng' :
  generate_survey d n rng = Ok (surveys, rng') ->
  forall s q a, In s surveys -> In q (questions s) -> In a (alternatives q) ->
    len (alt_benefits a) = Z.min (items_per_alternative d) (len (benefits d)).
Proof.
  intros Hgen.
  apply (generate_survey_bundles d
           (fun bundle =>
              len bundle = Z.min (items_per_alternative d) (len (benefits d)))
           n rng surveys rng'); [|exact Hgen].
  intros used r bundle r' H. now apply generate_random_bundle_size in H.
Qed.

(** X1: in a generated design the respondent identifiers are 1, 2, ... in
    order, every respondent has the questions 1, 2, ... in order, and every
    question has the labels A, B, ... in order. *)
Theorem generated_design_identifiers (d : ConjointSurveyDesigner) (n : Z)
    rng surveys rng' :
  generate_survey d n rng = Ok (surveys, rng') ->
  map s_respondent_id surveys = py_range 1 (n + 1) /\
  forall s, In s surveys ->
    map q_question_id (questions s) = py_range 1 (n_questions d + 1) /\
    forall q, In q (questions s) ->
      map alternative_id (alternatives q)
      = map label_of (py_range 0 (n_alternatives d)).
Proof.
  intros Hgen. pose proof (generate_survey_inv d _ _ _ _ Hgen) as Hok.
  split.
  - apply Forall2_map_r. eapply Forall2_impl; [|exact Hok]. now intros ? ? [? _].
  - intros s Hs. destruct (Forall2_In_r Hok Hs) as (rid & _ & _ & Hqs). split.
    + apply Forall2_map_r. eapply Forall2_impl; [|exact Hqs]. now intros ? ? [? _].
    + intros q Hq. destruct (Forall2_In_r Hqs Hq) as (qid & _ & _ & Halts).
      clear - Halts. induction Halts as [|i a ids alts [Hc _] _ IH]; [reflexivity|].
      cbn. rewrite IH. f_equal. apply chr_inv in Hc as [_ Hc]. exact Hc.
Qed.

Lemma generated_design_identifiers_witness :
  map s_respondent_id surveys4 = [1; 2] /\
  forall s, In s surveys4 ->
    map q_question_id (questions s) = [1] /\
    forall q, In q (questions s) ->
      map alternative_id (alternatives q) = [py "A"; py "B"].
Proof.
  exact (generated_design_identifiers designer4 2 draws8 surveys4 [] eq_refl).
Defined.

(** X2: every bundle of a generated design has exactly
    [min(items_per_alternative, len(catalog))] benefits, all of them catalog
    entries, and without repetition when the catalog has none. *)
Theorem generated_bundles_sized (d : ConjointSurveyDesigner) (n : Z)
    rng surveys rng' :
  generate_survey d n rng = Ok (surveys, rng') ->
  forall s q a, In s surveys -> In q (questions s) -> In a (alternatives q) ->
    len (alt_benefits a) = Z.min (items_per_alternative d) (len (benefits d)) /\
    incl (alt_benefits a) (benefits d) /\
    (NoDup (benefits d) -> NoDup (alt_benefits a)).
Proof.
  intros Hgen.
  apply (generate_survey_bundles d
           (fun bundle =>
              len bundle = Z.min (items_per_alternative d) (len (benefits d)) /\
              incl bundle (benefits d) /\
              (NoDup (benefits d) -> NoDup bundle))
           n rng surveys rng'); [|exact Hgen].
  intros used r bundle r'. apply generate_random_bundle_size.
Qed.

Lemma generated_bundles_sized_witness :
  len [py "A"; py "D"] = 2 /\
  incl [py "A"; py "D"] catalog4 /\
  (NoDup catalog4 -> NoDup [py "A"; py "D"]).
Proof.
  exact (generated_bundles_sized designer4 2 draws8 surveys4 [] eq_refl
           (mkSurvey 1 [mkQuestion 1 [mkAlternative (py "A") [py "A"; py "D"];
                                      mkAlternative (py "B") [py "C"; py "B"]]])
           (mkQuestion 1 [mkAlternative (py "A") [py "A"; py "D"];
                          mkAlternative (py "B") [py "C"; py "B"]])
           (mkAlternative (py "A") [py "A"; py "D"])
           (or_introl eq_refl) (or_introl eq_refl) (or_introl eq_refl)).
Defined.

Lemma set_add_length (x : str) (s : set str) :
  (length (set_add str_eq_dec x s) <= S (length s))%nat.
Proof.
  induction s as [|h t IH]; cbn; [lia|].
  destruct (str_eq_dec x h); cbn; lia.
Qed.

Lemma set_update_length (used : set str) (bundle : list str) :
  (length (set_update used bundle) <= length used + length bundle)%nat.
Proof.
  unfold set_update. revert used.
  induction bundle as [|b bundle IH]; intros used; cbn; [lia|].
  specialize (IH (set_add str_eq_dec b used)).
  pose proof (set_add_length b used). lia.
Qed.

(** Excluding names removes at most as many catalog entries as there are
    names excluded. *)
Lemma available_of_length (d : ConjointSurveyDesigner) (used : set str) :
  NoDup (benefits d) ->
  (length (benefits d) <= length (available_of d used) + length used)%nat.
Proof.
  intros Hnd. unfold available_of.
  pose proof (filter_length (fun b => set_mem str_eq_dec b used) (benefits d)) as Hsplit.
  assert (Hin : (length (filter (fun b => set_mem str_eq_dec b used) (benefits d))
                 <= length used)%nat).
  { apply NoDup_incl_length; [now apply NoDup_filter|].
    intros b Hb. apply filter_In in Hb as [_ Hb].
    now apply set_mem_correct1 in Hb. }
  lia.
Qed.

(** With room in the catalog for every slot of a question, no draw falls
    back. *)
Lemma question_loop_log_no_fallback (d : ConjointSurveyDesigner) :
  NoDup (benefits d) ->
  forall alt_ids alts used log rng res log' rng',
    question_loop_log d alt_ids alts used log rng = Ok ((res, log'), rng') ->
    (length used + length alt_ids * Z.to_nat (items_per_alternative d)
     <= length (benefits d))%nat ->
    exists flags, log' = log ++ flags /\ Forall (fun f => f = false) flags.
Proof.
  intros Hnd.
  induction alt_ids as [|i ids IH]; intros alts used log rng res log' rng' H Hroom.
  - cbn in H. injection H as <- <- <-. exists []. split; [now rewrite app_nil_r|constructor].
  - cbn [question_loop_log] in H.
    apply bind_Ok in H as (bundle & r1 & Hb & H).
    apply bind_Ok in H as (label & r2 & Hc & H).
    apply generate_random_bundle_inv in Hb as (Hit & Hlen & _).
    cbn [length] in Hroom.
    apply IH in H as (flags & -> & Hflags).
    + exists (fallback_taken d used :: flags). split; [now rewrite <- app_assoc|].
      constructor; [|assumption]. unfold fallback_taken. apply Z.ltb_ge.
      pose proof (available_of_length d used Hnd). unfold len. lia.
    + pose proof (set_update_length used bundle). lia.
Qed.

Lemma generate_question_log_exists (d : ConjointSurveyDesigner) qid rng q rng' :
  generate_question d qid rng = Ok (q, rng') ->
  exists log, generate_question_log d qid rng = Ok ((q, log), rng').
Proof.
  unfold generate_question, generate_question_log. intros H.
  apply bind_Ok in H as (alts & r1 & Hq & H). injection H as <- <-.
  rewrite (question_loop_log_erase d _ _ _ []) in Hq. unfold bind.
  destruct (question_loop_log d (py_range 0 (n_alternatives d)) []
              (empty_set str) [] rng) as [[[alts' log] r]|e]; [|discriminate].
  injection Hq as <- <-. now exists log.
Qed.

Lemma generate_survey_questions (d : ConjointSurveyDesigner) (P : Question -> Prop)
    (n : Z) rng surveys rng' :
  (forall qid r q r', generate_question d qid r = Ok (q, r') -> P q) ->
  generate_survey d n rng = Ok (surveys, rng') ->
  forall s q, In s surveys -> In q (questions s) -> P q.
Proof.
  intros HP Hgen.
  assert (H : Forall2 (fun (_ : Z) s => forall q, In q (questions s) -> P q)
                      (py_range 1 (n + 1)) surveys).
  { revert Hgen. unfold generate_survey.
    apply (for_each_inv _ (fun (_ : Z) s => forall q, In q (questions s) -> P q)).
    intros rid r1 s r2 _ H.
    apply bind_Ok in H as (qs & r3 & Hqs & H). injection H as <- <-. cbn.
    assert (HF : Forall2 (fun (_ : Z) q => P q)
                         (py_range 1 (n_questions d + 1)) qs).
    { revert Hqs. apply (for_each_inv _ (fun (_ : Z) q => P q)).
      intros qid r4 q r5 _ Hq. eapply HP; eassumption. }
    intros q Hq. now destruct (Forall2_In_r HF Hq) as (qid & _ & Hall). }
  intros s q Hs Hq. destruct (Forall2_In_r H Hs) as (rid & _ & Hs').
  exact (Hs' q Hq).
Qed.

(** X3: when the catalog holds distinct names and at least
    [n_alternatives * items_per_alternative] of them, every question of a
    generated design has pairwise disjoint alternatives, whatever the random
    draws were. *)
Theorem roomy_catalog_disjoint (d : ConjointSurveyDesigner) (n : Z)
    rng surveys rng' :
  NoDup (benefits d) ->
  n_alternatives d * items_per_alternative d <= len (benefits d) ->
  generate_survey d n rng = Ok (surveys, rng') ->
  forall s q, In s surveys -> In q (questions s) ->
    forall i j a1 a2, i <> j ->
      nth_error (alternatives q) i = Some a1 ->
      nth_error (alternatives q) j = Some a2 ->
      disjoint (alt_benefits a1) (alt_benefits a2).
Proof.
  intros Hnd Hroom Hgen.
  apply (generate_survey_questions d
           (fun q => forall i j a1 a2, i <> j ->
              nth_error (alternatives q) i = Some a1 ->
              nth_error (alternatives q) j = Some a2 ->
              disjoint (alt_benefits a1) (alt_benefits a2))
           n rng surveys rng'); [|exact Hgen].
  clear Hgen. intros qid r q r' Hq.
  destruct (generate_question_log_exists d qid r q r' Hq) as (log & Hlog).
  unfold generate_question_log in Hlog.
  apply bind_Ok in Hlog as ([alts log'] & r1 & Hloop & Hret).
  injection Hret as <- <- <-. cbn [fst snd alternatives].
  assert (Hit : 0 <= items_per_alternative d \/ n_alternatives d <= 0).
  { destruct (Z.le_gt_cases (n_alternatives d) 0) as [|Hpos]; [now right|left].
    rewrite (py_range_cons 0 (n_alternatives d)) in Hloop by lia.
    cbn [question_loop_log] in Hloop.
    apply bind_Ok in Hloop as (bundle & r2 & Hb & _).
    now apply generate_random_bundle_inv in Hb as (Hit & _). }
  destruct (question_loop_log_no_fallback d Hnd _ _ _ _ _ _ _ _ Hloop)
    as (flags & Hflags & Hfalse).
  { rewrite py_range_length. unfold empty_set. cbn [length]. unfold len in Hroom.
    destruct Hit as [Hit|Hn]; [|replace (Z.to_nat (n_alternatives d - 0)) with 0%nat by lia; lia].
    destruct (Z.le_gt_cases (n_alternatives d) 0) as [Hn|Hn];
      [replace (Z.to_nat (n_alternatives d - 0)) with 0%nat by lia; lia|].
    nia. }
  destruct (question_loop_log_disjoint d _ _ _ _ _ _ _ _ Hloop)
    as (flags' & Hflags' & Hdis).
  cbn [app] in Hflags, Hflags'. subst log'. subst flags'.
  assert (Hlt : forall i j a1 a2, (i < j)%nat ->
            nth_error alts i = Some a1 -> nth_error alts j = Some a2 ->
            forall b, In b (alt_benefits a1) -> ~ In b (alt_benefits a2)).
  { apply Hdis; [assumption| |].
    - intros a b [].
    - intros i j a1 a2 _ Hn. destruct i; discriminate. }
  intros i j a1 a2 Hij H1 H2 b Hb1 Hb2.
  destruct (Nat.lt_gt_cases i j) as [Hc _]. destruct (Hc Hij) as [Hl|Hl].
  - exact (Hlt i j a1 a2 Hl H1 H2 b Hb1 Hb2).
  - exact (Hlt j i a2 a1 Hl H2 H1 b Hb2 Hb1).
Qed.

Lemma roomy_catalog_disjoint_witness :
  disjoint [py "A"; py "D"] [py "C"; py "B"].
Proof.
  assert (Hnd : NoDup (benefits designer4)).
  { cbn. repeat constructor; cbn; intuition discriminate. }
  assert (Hroom : n_alternatives designer4 * items_per_alternative designer4
                  <= len (benefits designer4)) by (cbn; lia).
  exact (roomy_catalog_disjoint designer4 2 draws8 surveys4 [] Hnd Hroom eq_refl
           (mkSurvey 1 [mkQuestion 1 [mkAlternative (py "A") [py "A"; py "D"];
                                      mkAlternative (py "B") [py "C"; py "B"]]])
           (mkQuestion 1 [mkAlternative (py "A") [py "A"; py "D"];
                          mkAlternative (py "B") [py "C"; py "B"]])
           (or_introl eq_refl) (or_introl eq_refl)
           0%nat 1%nat
           (mkAlternative (py "A") [py "A"; py "D"])
           (mkAlternative (py "B") [py "C"; py "B"])
           (O_S 0) eq_refl eq_refl).
Defined.

(** X4: the exported design table has exactly one row for each
    (respondent_id, question_id, alternative) it contains. *)
Theorem exported_rows_keyed_once (d : ConjointSurveyDesigner) (n : Z)
    rng surveys rng' :
  generate_survey d n rng = Ok (surveys, rng') ->
  NoDup (map row_key (export_to_csv d surveys)).
Proof.
  intros Hgen. eapply export_keys_NoDup. eapply generate_survey_inv; eassumption.
Qed.

Lemma exported_rows_keyed_once_witness :
  NoDup (map row_key (export_to_csv designer4 surveys4)).
Proof.
  exact (exported_rows_keyed_once designer4 2 draws8 surveys4 [] eq_refl).
Defined.

(* ------------------------------------------------------------------ *)
(** ** The form templates *)

Example str_of_Z_values :
  str_of_Z 0 = py "0" /\ str_of_Z 12 = py "12" /\ str_of_Z (-7) = py "-7".
Proof. repeat split. Qed.

Example join_values :
  join (py " + ") [py "X"; py "Y"; py "Z"] = py "X + Y + Z" /\
  join (py " + ") [py "X"] = py "X" /\ join (py " + ") [] = [].
Proof. repeat split. Qed.

Lemma occurs_app_l (needle text more : str) :
  occurs needle text -> occurs needle (text ++ more).
Proof.
  intros (b & a & ->). exists b, (a ++ more). now rewrite <- !app_assoc.
Qed.

Lemma occurs_app_r (needle text more : str) :
  occurs needle text -> occurs needle (more ++ text).
Proof.
  intros (b & a & ->). exists (more ++ b), a. now rewrite <- !app_assoc.
Qed.

Lemma occurs_refl (needle : str) : occurs needle needle.
Proof. exists [], []. now rewrite app_nil_r. Qed.

Lemma occurs_flat_map {A : Type} (f : A -> str) (l : list A) (x : A) :
  In x l -> occurs (f x) (flat_map f l).
Proof.
  induction l as [|h t IH]; intros Hin; [contradiction|]. cbn.
  destruct Hin as [->|Hin].
  - apply occurs_app_l, occurs_refl.
  - apply occurs_app_r. now apply IH.
Qed.

Lemma fold_left_append {A : Type} (f : A -> str) (l : list A) (init : str) :
  fold_left (fun text x => text ++ f x) l init = init ++ flat_map f l.
Proof.
  revert init. induction l as [|h t IH]; intros init; cbn.
  - now rewrite app_nil_r.
  - now rewrite IH, <- app_assoc.
Qed.

Lemma append_question_block (form_text : str) (q : Question) :
  append_question form_text q = form_text ++ question_block q.
Proof.
  unfold append_question, question_block.
  rewrite fold_left_append. now rewrite <- !app_assoc.
Qed.

Lemma fold_append_question (qs : list Question) (init : str) :
  fold_left append_question qs init = init ++ flat_map question_block qs.
Proof.
  revert init. induction qs as [|q qs IH]; intros init; cbn.
  - now rewrite app_nil_r.
  - now rewrite IH, append_question_block, <- app_assoc.
Qed.

(** X5: the template has one form per survey, in order and under the
    survey's respondent id; a form starts with the title line naming that
    id, consists of the header followed by one block per question in
    order, and shows every alternative of every question as a line
    [- **Option <label>**: <benefits joined by ' + '>]. *)
Theorem forms_show_every_option (surveys : list Survey) :
  let forms := generate_google_forms_template surveys in
  map f_respondent_id forms = map s_respondent_id surveys /\
  Forall2 (fun s f =>
             starts_with (form_title (s_respondent_id s)) (form_content f) /\
             form_content f
             = form_header s ++ flat_map question_block (questions s) /\
             forall q a, In q (questions s) -> In a (alternatives q) ->
                         occurs (option_line a) (form_content f))
          surveys forms.
Proof.
  cbv zeta. unfold generate_google_forms_template. split.
  - now rewrite map_map.
  - induction surveys as [|s ss IH]; cbn [map]; constructor; [|exact IH].
    cbn [form_content]. rewrite fold_append_question. split; [|split].
    + unfold starts_with, form_header, form_title.
      eexists. rewrite <- !app_assoc. reflexivity.
    + reflexivity.
    + intros q a Hq Ha. apply occurs_app_r.
      destruct (occurs_flat_map question_block _ q Hq) as (b & c & ->).
      apply occurs_app_r, occurs_app_l. unfold question_block.
      do 6 apply occurs_app_r. apply occurs_app_l.
      now apply occurs_flat_map.
Qed.

Example form_of_first_respondent :
  map form_content
      (generate_google_forms_template
         [mkSurvey 7 [mkQuestion 1 [mkAlternative (py "A") [py "X"; py "Y"]]]])
  = [py "# Employee Benefits Survey - Employee ID: 7" ++ nl ++ nl
     ++ py "Please select your preferred benefit package for each question."
     ++ nl ++ nl ++ py "---" ++ nl ++ nl
     ++ py "## Question 1" ++ nl
     ++ py "Which benefit package do you prefer most?" ++ nl ++ nl
     ++ py "- **Option A**: X + Y" ++ nl
     ++ nl ++ py "*Your answer (A/B/C):* ___________" ++ nl ++ nl
     ++ py "---" ++ nl ++ nl].
Proof. reflexivity. Qed.

Lemma py_inj (s t : string) : py s = py t -> s = t.
Proof.
  unfold py. intros H.
  rewrite <- (string_of_list_ascii_of_string s), <- (string_of_list_ascii_of_string t).
  f_equal. revert H.
  generalize (list_ascii_of_string s) as l, (list_ascii_of_string t) as l'.
  induction l as [|a l IH]; intros [|b l'] H; cbn in H; try discriminate;
    [reflexivity|].
  injection H as Hab Hl. f_equal; [|now apply IH].
  now rewrite <- (ascii_N_embedding a), <- (ascii_N_embedding b), Hab.
Qed.

(** Printing an integer loses nothing. *)
Lemma str_of_Z_inj (a b : Z) : str_of_Z a = str_of_Z b -> a = b.
Proof.
  unfold str_of_Z. intros H. apply py_inj in H.
  apply DecimalZ.to_int_inj.
  assert (E : Some (Z.to_int a) = Some (Z.to_int b)).
  { rewrite <- !DecimalString.NilEmpty.isi. now rewrite H. }
  now injection E.
Qed.

Lemma string_of_uint_no_nl (d : Decimal.uint) :
  ~ In 10%N (py (DecimalString.NilEmpty.string_of_uint d)).
Proof.
  induction d; cbn; [intros [] | ..];
    (intros [H|H]; [discriminate | now apply IHd]).
Qed.

Lemma str_of_Z_no_nl (z : Z) : ~ In 10%N (str_of_Z z).
Proof.
  unfold str_of_Z. destruct (Z.to_int z) as [d|d]; cbn.
  - apply string_of_uint_no_nl.
  - intros [H|H]; [discriminate|]. now apply (string_of_uint_no_nl d).
Qed.

Lemma split_at_first (c : N) (x y r1 r2 : str) :
  ~ In c x -> ~ In c y -> x ++ c :: r1 = y ++ c :: r2 -> x = y.
Proof.
  revert y. induction x as [|a x IH]; intros [|b y] Hx Hy H; cbn in *.
  - reflexivity.
  - injection H as -> _. tauto.
  - injection H as -> _. tauto.
  - injection H as -> H. f_equal. apply IH with (y := y); tauto.
Qed.

(** X6: the respondent id can be read back from a form: two forms of a
    template with the same text are for the same respondent id. *)
Theorem forms_identify_respondent (surveys : list Survey) (f1 f2 : FormData) :
  In f1 (generate_google_forms_template surveys) ->
  In f2 (generate_google_forms_template surveys) ->
  form_content f1 = form_content f2 ->
  f_respondent_id f1 = f_respondent_id f2.
Proof.
  unfold generate_google_forms_template. intros H1 H2 Heq.
  apply in_map_iff in H1 as (s1 & <- & _).
  apply in_map_iff in H2 as (s2 & <- & _).
  cbn [form_content f_respondent_id] in *.
  rewrite !fold_append_question in Heq. unfold form_header in Heq.
  rewrite <- !app_assoc in Heq. apply app_inv_head in Heq.
  apply str_of_Z_inj.
  eapply (split_at_first 10%N); [apply str_of_Z_no_nl | apply str_of_Z_no_nl |].
  exact Heq.
Qed.

Lemma forms_identify_respondent_witness :
  f_respondent_id
    (mkFormData 1 (fold_left append_question (questions (mkSurvey 1 []))
                             (form_header (mkSurvey 1 []))))
  = f_respondent_id
      (mkFormData 1 (fold_left append_question (questions (mkSurvey 1 []))
                               (form_header (mkSurvey 1 [])))).
Proof.
  apply (forms_identify_respondent [mkSurvey 1 []]).
  - now left.
  - now left.
  - reflexivity.
Defined.

(* ------------------------------------------------------------------ *)
(** ** More on merging *)

Lemma left_merge_ext (design : list DesignRow) (resp1 resp2 : list ResponseRow) :
  (forall d, In d design ->
             filter (key_match d) resp1 = filter (key_match d) resp2) ->
  merge_rows design resp1 = merge_rows design resp2.
Proof.
  unfold merge_rows, left_merge. intros H. f_equal.
  induction design as [|d design IH]; [reflexivity|]. cbn.
  rewrite (H d (or_introl eq_refl)). f_equal. apply IH.
  intros d' Hd'. apply H. now right.
Qed.

(** X7: a response row whose (respondent, question) pair is not in the
    design is ignored: the merged frame and the scorecard (or the exception)
    are the same with and without it. *)
Theorem orphan_response_ignored (design : list DesignRow)
    (resp1 : list ResponseRow) (orphan : ResponseRow) (resp2 : list ResponseRow) :
  (forall d, In d design -> key_match d orphan = false) ->
  merge_rows design (resp1 ++ orphan :: resp2) = merge_rows design (resp1 ++ resp2) /\
  scorecard_of (analyze design (resp1 ++ orphan :: resp2))
  = scorecard_of (analyze design (resp1 ++ resp2)).
Proof.
  intros Horphan.
  assert (Hm : merge_rows design (resp1 ++ orphan :: resp2)
               = merge_rows design (resp1 ++ resp2)).
  { apply left_merge_ext. intros d Hd. rewrite !filter_app. cbn [filter].
    now rewrite (Horphan d Hd). }
  split; [exact Hm|].
  unfold analyze, merge_data, new_analyzer, calculate_preference_scores.
  cbn [snd design_df response_df results_df merged_df]. rewrite Hm.
  destruct (data_long (merge_rows design (resp1 ++ resp2))); reflexivity.
Qed.

Lemma orphan_response_ignored_witness :
  merge_rows design_xy ([] ++ mkResponseRow 9 9 (Some (py "A")) :: response_a)
  = merge_rows design_xy ([] ++ response_a) /\
  scorecard_of (analyze design_xy
                        ([] ++ mkResponseRow 9 9 (Some (py "A")) :: response_a))
  = scorecard_of (analyze design_xy ([] ++ response_a)).
Proof.
  apply (orphan_response_ignored design_xy []
           (mkResponseRow 9 9 (Some (py "A"))) response_a).
  intros d [<-|[<-|[]]]; reflexivity.
Defined.

Lemma merge_rows_single_length (d : DesignRow) (response : list ResponseRow) :
  length (merge_rows [d] response) = Nat.max 1 (matches d response).
Proof.
  unfold merge_rows, left_merge, matches. cbn [flat_map]. rewrite app_nil_r.
  destruct (filter (key_match d) response) as [|r rs]; [reflexivity|].
  rewrite !length_map. cbn [length]. lia.
Qed.

(** X8: the merge keeps every design row, in order: once when no response
    row or exactly one carries its key, and as many times as there are
    response rows of its key otherwise.  With at most one response row per
    key the design columns of the merged frame are the design itself. *)
Theorem merged_row_count (design : list DesignRow) (response : list ResponseRow) :
  length (merge_rows design response)
  = list_sum (map (fun d => Nat.max 1 (matches d response)) design) /\
  (forall d, In d design -> In d (map m_design (merge_rows design response))) /\
  (NoDup (map response_key response) ->
   map m_design (merge_rows design response) = design).
Proof.
  split; [|split].
  - induction design as [|d design IH]; [reflexivity|].
    change (d :: design) with ([d] ++ design).
    rewrite merge_rows_app, length_app, merge_rows_single_length, IH.
    reflexivity.
  - intros d Hd. apply in_split in Hd as (l1 & l2 & ->).
    change (d :: l2) with ([d] ++ l2).
    rewrite !merge_rows_app, !map_app. apply in_or_app. right.
    apply in_or_app. left.
    unfold merge_rows, left_merge. cbn [flat_map]. rewrite app_nil_r.
    destruct (filter (key_match d) response) as [|r rs]; cbn; now left.
  - apply merge_rows_design.
Qed.

Lemma merged_row_count_witness :
  map m_design (merge_rows design_xy response_a) = design_xy.
Proof.
  apply (proj2 (proj2 (merged_row_count design_xy response_a))).
  cbn. repeat constructor. intros [].
Defined.

(* ------------------------------------------------------------------ *)
(** ** More on the scorecard *)

Lemma column_sum_perm (l l' : list Z) :
  Permutation l l' -> column_sum l = column_sum l'.
Proof.
  unfold column_sum. induction 1; cbn; lia.
Qed.

Lemma column_sum_app (l l' : list Z) :
  column_sum (l ++ l') = column_sum l + column_sum l'.
Proof. unfold column_sum. induction l; cbn; lia. Qed.

(** A key of a duplicate-free list is met exactly once. *)
Lemma indicator_sum (keys : list str) (b : str) :
  NoDup keys -> In b keys ->
  column_sum (map (fun k => if str_eqb b k then 1 else 0) keys) = 1.
Proof.
  unfold column_sum.
  induction keys as [|k keys IH]; intros Hnd Hin; [contradiction|].
  inversion Hnd as [|? ? Hk Hnd']; subst. cbn [map fold_right].
  destruct (str_eqb b k) eqn:E.
  - apply str_eqb_eq in E. subst k.
    assert (Hz : fold_right Z.add 0
                   (map (fun k => if str_eqb b k then 1 else 0) keys) = 0).
    { clear IH Hnd Hnd' Hin. induction keys as [|k keys IH]; [reflexivity|].
      cbn [map fold_right]. destruct (str_eqb b k) eqn:E.
      - apply str_eqb_eq in E. subst k. exfalso. apply Hk. now left.
      - rewrite IH; [reflexivity|]. intros H. apply Hk. now right. }
    lia.
  - destruct Hin as [->|Hin]; [now rewrite str_eqb_refl in E|].
    rewrite IH by assumption. lia.
Qed.

(** Grouping by a complete, duplicate-free key list splits any total. *)
Lemma group_totals (w : Observation -> Z) (keys : list str) (obs : list Observation) :
  NoDup keys -> (forall o, In o obs -> In (o_benefit o) keys) ->
  column_sum (map (fun k => column_sum (map w (group_of obs k))) keys)
  = column_sum (map w obs).
Proof.
  intros Hnd. induction obs as [|o obs IH]; intros Hin.
  - clear. unfold group_of, column_sum. cbn [filter map fold_right].
    induction keys as [|k keys IH]; [reflexivity|].
    cbn [map fold_right]. now rewrite IH.
  - assert (Hsplit : forall ks,
              column_sum (map (fun k => column_sum (map w (group_of (o :: obs) k))) ks)
              = w o * column_sum (map (fun k => if str_eqb (o_benefit o) k
                                                then 1 else 0) ks)
                + column_sum (map (fun k => column_sum (map w (group_of obs k))) ks)).
    { induction ks as [|k ks IHk]; [unfold column_sum; cbn; lia|].
      unfold column_sum in *. cbn [map fold_right]. rewrite IHk.
      unfold group_of. cbn [filter].
      destruct (str_eqb (o_benefit o) k); cbn [map fold_right]; lia. }
    rewrite Hsplit, IH, indicator_sum.
    + unfold column_sum. cbn [map fold_right]. lia.
    + assumption.
    + apply Hin. now left.
    + intros o' Ho'. apply Hin. now right.
Qed.

Lemma column_sum_ones {A : Type} (l : list A) :
  column_sum (map (fun _ => 1) l) = len l.
Proof.
  unfold column_sum, len. induction l as [|h t IH]; [reflexivity|].
  cbn [map fold_right length]. rewrite IH. lia.
Qed.

Lemma analyze_rows (design : list DesignRow) (response : list ResponseRow) sc a' :
  analyze design response = Ok (sc, a') ->
  let obs := data_long (merge_rows design response) in
  obs <> [] /\
  Permutation (map benefit sc) (group_keys obs) /\
  Permutation (map choice_rate sc) (map choice_rate (benefit_stats obs)) /\
  forall e, In e sc ->
    times_chosen e = sum_chosen (group_of obs (benefit e)) /\
    times_shown e = len (group_of obs (benefit e)) /\
    choice_rate e = fdiv (of_Z (times_chosen e)) (of_Z (times_shown e)) /\
    utility_score e
    = fmul (fdiv (fsub (choice_rate e)
                       (series_mean (map choice_rate (benefit_stats obs))))
                 (series_std (map choice_rate (benefit_stats obs))))
           (Fin 100) /\
    preference_pct e = fmul (choice_rate e) (Fin 100).
Proof.
  intros Hrun. cbv zeta. unfold analyze, merge_data, new_analyzer in Hrun.
  cbn [snd design_df response_df results_df] in Hrun.
  set (merged := merge_rows design response) in *.
  assert (Hne : data_long merged <> []).
  { intros E. unfold calculate_preference_scores in Hrun. cbn [merged_df] in Hrun.
    rewrite E in Hrun. discriminate. }
  destruct (scorecard_rows (mkAnalyzer design response (Some merged) None)
              merged eq_refl Hne) as (sc' & Hrun' & Hk & Hr & Hrows).
  rewrite Hrun in Hrun'. injection Hrun' as <- _.
  split; [assumption|]. split; [assumption|]. split; [assumption|].
  intros e He. destruct (Hrows e He) as (H1 & H2 & H3 & _ & H5 & H6). auto.
Qed.

Lemma data_long_benefits (design : list DesignRow) (response : list ResponseRow)
    (b : str) :
  In b (map o_benefit (data_long (merge_rows design response)))
  <-> exists d, In d design /\ shows d b.
Proof.
  unfold shows. split.
  - intros H. apply in_map_iff in H as (o & <- & Ho). unfold data_long in Ho.
    apply in_flat_map in Ho as (m & Hm & Ho).
    apply in_map_iff in Ho as (b & <- & Hb). cbn.
    exists (m_design m). split; [|assumption].
    now destruct (merge_rows_inv design response m Hm) as (Hd & _).
  - intros (d & Hd & Hb).
    assert (Hin : In d (map m_design (merge_rows design response))).
    { apply in_split in Hd as (l1 & l2 & ->).
      change (d :: l2) with ([d] ++ l2).
      rewrite !merge_rows_app, !map_app. apply in_or_app. right.
      apply in_or_app. left.
      unfold merge_rows, left_merge. cbn [flat_map]. rewrite app_nil_r.
      destruct (filter (key_match d) response) as [|r rs]; cbn; now left. }
    apply in_map_iff in Hin as (m & <- & Hm).
    apply in_map_iff.
    exists (mkObservation b (chosen m) (respondent_id (m_design m))
                          (question_id (m_design m))).
    split; [reflexivity|]. unfold data_long. apply in_flat_map.
    exists m. split; [assumption|]. apply in_map_iff.
    exists b. split; [reflexivity | assumption].
Qed.

(** X9: a scorecard has exactly one row per benefit shown in a non-empty
    cell of the design; its [times_shown] column adds up to the number of
    long-format observations and its [times_chosen] column to the number of
    those that are flagged. *)
Theorem scorecard_covers_observations (design : list DesignRow)
    (response : list ResponseRow) sc a' :
  analyze design response = Ok (sc, a') ->
  let obs := data_long (merge_rows design response) in
  NoDup (map benefit sc) /\
  (forall b, In b (map benefit sc) <-> exists d, In d design /\ shows d b) /\
  column_sum (map times_shown sc) = len obs /\
  column_sum (map times_chosen sc) = column_sum (map o_chosen obs).
Proof.
  intros Hrun obs.
  destruct (analyze_rows design response sc a' Hrun) as (_ & Hk & _ & Hrows).
  fold obs in Hk, Hrows.
  assert (Hnd : NoDup (map benefit sc)).
  { eapply Permutation_NoDup; [symmetry; exact Hk | apply group_keys_NoDup]. }
  assert (Hcover : forall o, In o obs -> In (o_benefit o) (group_keys obs)).
  { intros o Ho. apply group_keys_In. now apply in_map. }
  split; [assumption|]. split; [|split].
  - intros b. rewrite <- data_long_benefits. fold obs.
    rewrite <- group_keys_In. split; apply Permutation_in;
      [exact Hk | symmetry; exact Hk].
  - rewrite <- column_sum_ones, <- (group_totals (fun _ => 1) (group_keys obs) obs)
      by (assumption || apply group_keys_NoDup).
    rewrite <- (column_sum_perm _ _ (Permutation_map _ Hk)), map_map.
    f_equal. apply map_ext_in. intros e He.
    destruct (Hrows e He) as (_ & -> & _). now rewrite column_sum_ones.
  - rewrite <- (group_totals o_chosen (group_keys obs) obs)
      by (assumption || apply group_keys_NoDup).
    rewrite <- (column_sum_perm _ _ (Permutation_map _ Hk)), map_map.
    f_equal. apply map_ext_in. intros e He.
    now destruct (Hrows e He) as (-> & _).
Qed.

Lemma scorecard_covers_observations_witness :
  exists sc a',
    analyze design_xy response_a = Ok (sc, a') /\
    NoDup (map benefit sc) /\
    column_sum (map times_shown sc) = 2 /\
    column_sum (map times_chosen sc) = 1.
Proof.
  eexists. eexists. split; [reflexivity|].
  destruct (scorecard_covers_observations design_xy response_a _ _ eq_refl)
    as (Hnd & _ & Hs & Hc).
  split; [exact Hnd|]. split; [exact Hs | exact Hc].
Defined.

Lemma analyze_sorted_form (design : list DesignRow) (response : list ResponseRow)
    sc a' :
  analyze design response = Ok (sc, a') ->
  sc = sort_values_desc utility_score
         (with_preference_pct
            (with_utility
               (benefit_stats (data_long (merge_rows design response))))).
Proof.
  unfold analyze, merge_data, new_analyzer, calculate_preference_scores.
  cbn [snd design_df response_df results_df merged_df].
  destruct (data_long (merge_rows design response)); [discriminate|].
  intros H. now injection H as <- _.
Qed.

Lemma analyze_counts_bounds (design : list DesignRow) (response : list ResponseRow)
    sc a' e :
  analyze design response = Ok (sc, a') -> In e sc ->
  1 <= times_shown e /\ 0 <= times_chosen e <= times_shown e.
Proof.
  intros Hrun He.
  destruct (analyze_rows design response sc a' Hrun) as (_ & Hk & _ & Hrows).
  destruct (Hrows e He) as (Hc & Hs & _). rewrite Hc, Hs.
  set (obs := data_long (merge_rows design response)) in *. split.
  - assert (Hin : In (benefit e) (map o_benefit obs)).
    { apply group_keys_In. eapply Permutation_in; [exact Hk|]. now apply in_map. }
    apply in_map_iff in Hin as (o & Ho & Hin).
    assert (Hg : In o (group_of obs (benefit e))).
    { unfold group_of. apply filter_In. split; [assumption|]. now apply str_eqb_eq. }
    unfold len. destruct (group_of obs (benefit e)); [contradiction|]. cbn [length]. lia.
  - apply sum_chosen_bounds. intros o Ho. unfold group_of in Ho.
    apply filter_In in Ho as [Ho _]. unfold obs, data_long in Ho.
    apply in_flat_map in Ho as (m & Hm & Ho).
    apply in_map_iff in Ho as (b & <- & _). cbn.
    now destruct (merge_rows_inv design response m Hm) as (_ & Hb & _).
Qed.

Section RateFacts.
Local Open Scope R_scope.

Lemma proportion_bounds (tc ts : Z) :
  (1 <= ts)%Z -> (0 <= tc <= ts)%Z -> 0 <= IZR tc / IZR ts <= 1.
Proof.
  intros Hs [H0 H1].
  assert (Hts : 0 < IZR ts) by (apply IZR_lt; lia).
  assert (Htc0 : 0 <= IZR tc) by (apply IZR_le; lia).
  assert (Htc1 : IZR tc <= IZR ts) by (apply IZR_le; lia).
  unfold Rdiv. pose proof (Rinv_0_lt_compat _ Hts) as Hinv.
  assert (Hone : IZR ts * / IZR ts = 1) by (apply Rinv_r; lra).
  split; nra.
Qed.

(** X10: every row of a scorecard has been shown at least once and chosen
    no more often than shown; its [choice_rate] is the real number
    [times_chosen / times_shown], between 0 and 1, and its [preference_pct]
    is that number times 100. *)
Theorem rates_are_proportions (design : list DesignRow)
    (response : list ResponseRow) sc a' :
  analyze design response = Ok (sc, a') ->
  forall e, In e sc ->
    (1 <= times_shown e)%Z /\ (0 <= times_chosen e <= times_shown e)%Z /\
    exists c : R,
      choice_rate e = Fin c /\
      c = IZR (times_chosen e) / IZR (times_shown e) /\
      0 <= c <= 1 /\
      preference_pct e = Fin (c * 100).
Proof.
  intros Hrun e He.
  destruct (analyze_counts_bounds design response sc a' e Hrun He) as (Hs & Hc).
  destruct (analyze_rows design response sc a' Hrun) as (_ & _ & _ & Hrows).
  destruct (Hrows e He) as (_ & _ & Hrate & _ & Hpct).
  split; [assumption|]. split; [assumption|].
  exists (IZR (times_chosen e) / IZR (times_shown e)).
  assert (Hfin : choice_rate e = Fin (IZR (times_chosen e) / IZR (times_shown e))).
  { rewrite Hrate. unfold of_Z. apply fdiv_Fin. apply not_0_IZR. lia. }
  split; [assumption|]. split; [reflexivity|]. split.
  - now apply proportion_bounds.
  - now rewrite Hpct, Hfin.
Qed.

Lemma rates_are_proportions_witness :
  exists sc a',
    analyze design_xy response_a = Ok (sc, a') /\
    forall e, In e sc ->
      exists c : R, choice_rate e = Fin c /\ 0 <= c <= 1 /\
                    preference_pct e = Fin (c * 100).
Proof.
  eexists. eexists. split; [reflexivity|]. intros e He.
  destruct (rates_are_proportions design_xy response_a _ _ eq_refl e He)
    as (_ & _ & c & Hc & _ & Hb & Hp).
  exists c. auto.
Defined.

(** The order on float cells that are not NaN. *)
Lemma fltb_asym (x y : float) : fltb x y = true -> fltb y x = false.
Proof.
  destruct x as [a| | |], y as [b| | |]; cbn; try reflexivity; try discriminate.
  destruct (Rlt_dec a b), (Rlt_dec b a); try reflexivity; try discriminate. lra.
Qed.

Lemma fltb_ge_trans (x y z : float) :
  notna y = true ->
  fltb x y = false -> fltb y z = false -> fltb x z = false.
Proof.
  destruct x as [a| | |], y as [b| | |], z as [c| | |]; cbn;
    try reflexivity; try discriminate.
  destruct (Rlt_dec a b), (Rlt_dec b c), (Rlt_dec a c);
    try reflexivity; try discriminate. lra.
Qed.
End RateFacts.

Section SortedFacts.
Variable A : Type.
Variable key : A -> float.

Lemma insert_desc_sorted (e : A) (l : list A) :
  Forall (fun x => notna (key x) = true) l ->
  StronglySorted (fun x y => fltb (key x) (key y) = false) l ->
  StronglySorted (fun x y => fltb (key x) (key y) = false) (insert_desc key e l).
Proof.
  induction l as [|h t IH]; intros Hnn Hs; cbn.
  - repeat constructor.
  - inversion Hs as [|? ? Ht Hh]; subst. inversion Hnn as [|? ? Hnh Hnt]; subst.
    destruct (fltb (key e) (key h)) eqn:E.
    + constructor; [now apply IH|].
      eapply Permutation_Forall; [symmetry; apply insert_desc_perm|].
      constructor; [|assumption]. now apply fltb_asym.
    + constructor; [assumption|]. constructor; [exact E|].
      eapply Forall_impl; [|exact Hh]. intros x Hx. cbn in Hx.
      eapply fltb_ge_trans; eassumption.
Qed.

Lemma sort_desc_sorted (l : list A) :
  Forall (fun x => notna (key x) = true) l ->
  StronglySorted (fun x y => fltb (key x) (key y) = false) (sort_desc key l).
Proof.
  induction l as [|h t IH]; intros Hnn; cbn; [constructor|].
  inversion Hnn; subst. apply insert_desc_sorted; [|now apply IH].
  eapply Permutation_Forall; [symmetry; apply sort_desc_perm | assumption].
Qed.
End SortedFacts.

(** X11: a scorecard lists first the rows whose utility score is a number,
    in decreasing order of that score, and after them the rows whose
    utility score is NaN. *)
Theorem scorecard_ranked (design : list DesignRow) (response : list ResponseRow)
    sc a' :
  analyze design response = Ok (sc, a') ->
  exists ranked unranked,
    sc = ranked ++ unranked /\
    Forall (fun e => utility_score e <> NaN) ranked /\
    Forall (fun e => utility_score e = NaN) unranked /\
    StronglySorted (fun e1 e2 => fltb (utility_score e1) (utility_score e2) = false)
                   ranked.
Proof.
  intros Hrun. rewrite (analyze_sorted_form design response sc a' Hrun).
  unfold sort_values_desc. eexists. eexists. split; [reflexivity|].
  split; [|split].
  - eapply Permutation_Forall; [symmetry; apply sort_desc_perm|].
    apply Forall_forall. intros e He. apply filter_In in He as [_ He].
    unfold notna in He. intros E. now rewrite E in He.
  - apply Forall_forall. intros e He. apply filter_In in He as [_ He].
    now destruct (utility_score e).
  - apply sort_desc_sorted. apply Forall_forall. intros e He.
    now apply filter_In in He as [_ He].
Qed.

Lemma scorecard_ranked_witness :
  exists sc a' ranked unranked,
    analyze design_xy response_a = Ok (sc, a') /\
    sc = ranked ++ unranked /\
    StronglySorted (fun e1 e2 => fltb (utility_score e1) (utility_score e2) = false)
                   ranked.
Proof.
  destruct (scorecard_ranked design_xy response_a _ _ eq_refl)
    as (ranked & unranked & Hsc & _ & _ & Hs).
  eexists. eexists. exists ranked, unranked. split; [reflexivity|]. auto.
Defined.

(** X12: scoring raises [KeyError] exactly when no design row shows a
    benefit (an empty design included), and returns a scorecard as soon as
    one does, whatever the responses. *)
Theorem scoring_needs_a_benefit (design : list DesignRow)
    (response : list ResponseRow) :
  ((forall d, In d design -> shown_benefits (benefit_cells d) = []) ->
   analyze design response = Raise KeyError) /\
  ((exists d b, In d design /\ shows d b) ->
   exists sc a', analyze design response = Ok (sc, a')).
Proof.
  unfold analyze, merge_data, new_analyzer, calculate_preference_scores.
  cbn [snd design_df response_df results_df merged_df].
  destruct (data_long (merge_rows design response)) as [|o obs] eqn:E; split.
  - reflexivity.
  - intros (d & b & Hd & Hb). exfalso.
    assert (Hin : In b (map o_benefit (data_long (merge_rows design response)))).
    { apply data_long_benefits. now exists d. }
    rewrite E in Hin. contradiction.
  - intros Hnone. exfalso.
    assert (Hin : In (o_benefit o)
                     (map o_benefit (data_long (merge_rows design response)))).
    { rewrite E. now left. }
    apply data_long_benefits in Hin as (d & Hd & Hb). unfold shows in Hb.
    now rewrite (Hnone d Hd) in Hb.
  - intros _. eexists. eexists. reflexivity.
Qed.

Lemma scoring_needs_a_benefit_witness :
  analyze [mkDesignRow 1 1 (Some (py "A")) [Some []; None]] response_a
  = Raise KeyError /\
  exists sc a', analyze design_xy response_a = Ok (sc, a').
Proof.
  split.
  - apply (proj1 (scoring_needs_a_benefit _ response_a)).
    intros d [<-|[]]. reflexivity.
  - apply (proj2 (scoring_needs_a_benefit design_xy response_a)).
    exists (mkDesignRow 1 1 (Some (py "A")) [Some (py "X")]), (py "X").
    split; [now left | now left].
Defined.

Lemma analyze_no_benefit (design : list DesignRow) (response : list ResponseRow) :
  (forall d, In d design -> shown_benefits (benefit_cells d) = []) ->
  analyze design response = Raise KeyError.
Proof.
  intros Hnone.
  unfold analyze, merge_data, new_analyzer, calculate_preference_scores.
  cbn [snd design_df response_df results_df merged_df].
  destruct (data_long (merge_rows design response)) as [|o obs] eqn:E;
    [reflexivity|]. exfalso.
  assert (Hin : In (o_benefit o)
                   (map o_benefit (data_long (merge_rows design response)))).
  { rewrite E. now left. }
  apply data_long_benefits in Hin as (d & Hd & Hb). unfold shows in Hb.
  now rewrite (Hnone d Hd) in Hb.
Qed.

Lemma shown_benefits_repeat_empty (k : nat) :
  shown_benefits (repeat (Some []) k) = [].
Proof. induction k as [|k IH]; [reflexivity|]. cbn. exact IH. Qed.

(** X13: a design generated from an empty catalog, or with zero benefits
    per alternative, cannot be analysed: its rows hold only empty cells and
    scoring raises [KeyError] whatever the responses. *)
Theorem empty_catalog_unanalysable (d : ConjointSurveyDesigner) (n : Z)
    rng surveys rng' (response : list ResponseRow) :
  benefits d = [] \/ items_per_alternative d = 0 ->
  generate_survey d n rng = Ok (surveys, rng') ->
  Forall (fun row => Forall (fun c => c = Some []) (benefit_cells row))
         (export_to_csv d surveys) /\
  analyze (export_to_csv d surveys) response = Raise KeyError.
Proof.
  intros Hempty Hgen.
  assert (Hcells : forall row, In row (export_to_csv d surveys) ->
            benefit_cells row
            = repeat (Some []) (Z.to_nat (items_per_alternative d))).
  { intros row Hrow. unfold export_to_csv in Hrow.
    apply in_flat_map in Hrow as (s & Hs & Hrow).
    apply in_flat_map in Hrow as (q & Hq & Hrow).
    apply in_map_iff in Hrow as (a & <- & Ha). cbn [benefit_cells].
    pose proof (generated_bundle_sizes_aux d n rng surveys rng' Hgen s q a Hs Hq Ha)
      as Hlen.
    assert (Hnil : alt_benefits a = []).
    { destruct (alt_benefits a); [reflexivity|]. exfalso.
      unfold len in Hlen. cbn [length] in Hlen.
      destruct Hempty as [E|E]; rewrite E in Hlen; cbn in Hlen; lia. }
    rewrite benefit_cols_of_spec by (rewrite Hnil; cbn; lia).
    rewrite Hnil. cbn. now rewrite Nat.sub_0_r. }
  split.
  - apply Forall_forall. intros row Hrow. rewrite (Hcells row Hrow).
    apply Forall_forall. intros c Hc. now apply repeat_spec in Hc.
  - apply analyze_no_benefit. intros row Hrow. rewrite (Hcells row Hrow).
    apply shown_benefits_repeat_empty.
Qed.

Lemma empty_catalog_unanalysable_witness :
  analyze (export_to_csv designer_empty
             [mkSurvey 1 [mkQuestion 1 [mkAlternative (py "A") [];
                                         mkAlternative (py "B") []]]])
          response_a
  = Raise KeyError.
Proof.
  exact (proj2 (empty_catalog_unanalysable designer_empty 1 [] _ []
                  response_a (or_introl eq_refl) eq_refl)).
Defined.

(* ------------------------------------------------------------------ *)
(** ** Standardising a column with variance *)

Section Standardise.
Local Open Scope R_scope.

Lemma all_Fin (l : list float) :
  (forall x, In x l -> exists c : R, x = Fin c) -> exists cs, l = map Fin cs.
Proof.
  induction l as [|h t IH]; intros H; [now exists []|].
  destruct (H h (or_introl eq_refl)) as (c & ->).
  destruct IH as (cs & ->); [intros x Hx; apply H; now right|].
  now exists (c :: cs).
Qed.

Lemma filter_notna_Fin (cs : list R) : filter notna (map Fin cs) = map Fin cs.
Proof. induction cs as [|c cs IH]; cbn; [reflexivity | now rewrite IH]. Qed.

Lemma Rsum_from (l : list R) (acc : R) :
  fold_left Rplus l acc = acc + fold_left Rplus l 0.
Proof.
  revert acc. induction l as [|x l IH]; intros acc; cbn; [lra|].
  rewrite (IH (acc + x)), (IH (0 + x)). lra.
Qed.

Lemma Rsum_nonneg (f : R -> R) (l : list R) :
  (forall x, 0 <= f x) -> 0 <= fold_left Rplus (map f l) 0.
Proof.
  intros Hf. induction l as [|x l IH]; cbn; [lra|].
  rewrite Rsum_from. specialize (Hf x). lra.
Qed.

Lemma Rsum_pos (f : R -> R) (l : list R) (c : R) :
  (forall x, 0 <= f x) -> In c l -> 0 < f c ->
  0 < fold_left Rplus (map f l) 0.
Proof.
  intros Hf Hin Hc. induction l as [|x l IH]; [contradiction|].
  cbn. rewrite Rsum_from. pose proof (Rsum_nonneg f l Hf) as Hl.
  destruct Hin as [->|Hin].
  - lra.
  - specialize (IH Hin). specialize (Hf x). lra.
Qed.

Lemma two_distinct_length {A : Type} (l : list A) (a b : A) :
  In a l -> In b l -> a <> b -> (2 <= length l)%nat.
Proof.
  destruct l as [|x [|y l]]; cbn; intros Ha Hb Hne; try lia; try contradiction.
  destruct Ha as [->|[]], Hb as [->|[]]. contradiction.
Qed.

Lemma series_mean_Fin (cs : list R) :
  (1 <= length cs)%nat ->
  series_mean (map Fin cs) = Fin (fold_left Rplus cs 0 / INR (length cs)).
Proof.
  intros Hn. unfold series_mean, len, fsum.
  rewrite filter_notna_Fin, length_map, fsum_Fin_from, of_Z_nat.
  apply fdiv_Fin. apply not_0_INR. lia.
Qed.

(** The sample standard deviation of real values that are not all equal
    is a positive real. *)
Lemma series_std_positive (cs : list R) (c1 c2 : R) :
  In c1 cs -> In c2 cs -> c1 <> c2 ->
  exists s, 0 < s /\ series_std (map Fin cs) = Fin s.
Proof.
  intros H1 H2 Hne.
  pose proof (two_distinct_length cs c1 c2 H1 H2 Hne) as Hn.
  set (m := fold_left Rplus cs 0 / INR (length cs)).
  set (v := fold_left Rplus (map (fun x => (m + - x) * (m + - x)) cs) 0
            / INR (length cs - 1)).
  assert (Hn1 : 0 < INR (length cs - 1)) by (apply lt_0_INR; lia).
  assert (Hsq : 0 < fold_left Rplus (map (fun x => (m + - x) * (m + - x)) cs) 0).
  { assert (Hsqr : forall a : R, 0 <= a * a) by (intros a; nra).
    assert (Hsqp : forall a : R, a <> 0 -> 0 < a * a) by (intros a Ha; nra).
    destruct (Req_dec_T c1 m) as [E1|E1].
    - apply Rsum_pos with (c := c2);
        [intros x; apply Hsqr | assumption | apply Hsqp; lra].
    - apply Rsum_pos with (c := c1);
        [intros x; apply Hsqr | assumption | apply Hsqp; lra]. }
  assert (Hv : 0 < v).
  { unfold v, Rdiv. apply Rmult_lt_0_compat; [assumption|].
    now apply Rinv_0_lt_compat. }
  exists (sqrt v). split; [now apply sqrt_lt_R0|].
  unfold series_std, len. rewrite filter_notna_Fin, length_map.
  replace (Z.of_nat (length cs) <=? 1)%Z with false
    by (symmetry; apply Z.leb_gt; lia).
  unfold fsum. rewrite fsum_Fin_from, of_Z_nat, fdiv_Fin
    by (apply not_0_INR; lia).
  fold m. rewrite map_map. unfold fsub. cbn [fneg fadd fmul].
  rewrite <- (map_map (fun x => (m + - x) * (m + - x)) Fin), fsum_Fin_from.
  replace (Z.of_nat (length cs) - 1)%Z with (Z.of_nat (length cs - 1)) by lia.
  rewrite of_Z_nat, fdiv_Fin by lra. fold v.
  unfold fsqrt. destruct (Rlt_dec v 0); [lra | reflexivity].
Qed.

Lemma standardise_monotone (m s c1 c2 : R) :
  0 < s -> c1 < c2 -> (c1 - m) / s * 100 < (c2 - m) / s * 100.
Proof.
  intros Hs Hc. unfold Rdiv. pose proof (Rinv_0_lt_compat s Hs). nra.
Qed.

Lemma StronglySorted_weaken {A : Type} (R1 R2 : A -> A -> Prop) (l : list A) :
  (forall x y, In x l -> In y l -> R1 x y -> R2 x y) ->
  StronglySorted R1 l -> StronglySorted R2 l.
Proof.
  intros H Hs. induction Hs as [|h t Ht IH Hh]; constructor.
  - apply IH. intros x y Hx Hy. apply H; now right.
  - apply Forall_forall. intros y Hy. rewrite Forall_forall in Hh.
    apply H; [now left | now right | now apply Hh].
Qed.

(** X14: when two benefits have different choice rates, every utility
    score of the scorecard is a real number, the choice rate centred on the
    mean rate and divided by a positive standard deviation, times 100; a
    higher choice rate gives a higher utility score; and the scorecard is in
    decreasing order of choice rate.  (Arithmetic on reals is exact
    here.) *)
Theorem utility_ranks_by_choice_rate (design : list DesignRow)
    (response : list ResponseRow) sc a' (e1 e2 : ScoreRow) :
  analyze design response = Ok (sc, a') ->
  In e1 sc -> In e2 sc -> choice_rate e1 <> choice_rate e2 ->
  exists mean std : R,
    0 < std /\
    (forall e, In e sc ->
       exists c, choice_rate e = Fin c /\
                 utility_score e = Fin ((c - mean) / std * 100)) /\
    (forall x y, In x sc -> In y sc ->
       fltb (choice_rate x) (choice_rate y) = true ->
       fltb (utility_score x) (utility_score y) = true) /\
    StronglySorted (fun x y => fltb (choice_rate x) (choice_rate y) = false) sc.
Proof.
  intros Hrun He1 He2 Hne.
  destruct (analyze_rows design response sc a' Hrun) as (_ & Hk & Hr & Hrows).
  set (obs := data_long (merge_rows design response)) in *.
  set (rates := map choice_rate (benefit_stats obs)) in *.
  assert (Hfin : forall e, In e sc -> exists c : R, choice_rate e = Fin c).
  { intros e He. destruct (Hrows e He) as (Hc & Hs & Hrate & _).
    assert (Hin : In (benefit e) (group_keys obs)).
    { eapply Permutation_in; [exact Hk|]. now apply in_map. }
    destruct (choice_rate_Fin obs _ Hin) as (c & Hc').
    exists c. now rewrite Hrate, Hc, Hs. }
  destruct (all_Fin rates) as (cs & Hcs).
  { intros x Hx. eapply Permutation_in in Hx; [|symmetry; exact Hr].
    apply in_map_iff in Hx as (e & <- & He). now apply Hfin. }
  assert (Hmem : forall e c, In e sc -> choice_rate e = Fin c -> In c cs).
  { intros e c He Hc.
    assert (Hin : In (Fin c) rates).
    { eapply Permutation_in; [exact Hr|]. rewrite <- Hc. now apply in_map. }
    rewrite Hcs in Hin. apply in_map_iff in Hin as (c' & E & Hc').
    now injection E as <-. }
  destruct (Hfin e1 He1) as (c1 & Hc1). destruct (Hfin e2 He2) as (c2 & Hc2).
  assert (Hc12 : c1 <> c2) by (intros ->; apply Hne; congruence).
  pose proof (Hmem e1 c1 He1 Hc1) as Hin1. pose proof (Hmem e2 c2 He2 Hc2) as Hin2.
  destruct (series_std_positive cs c1 c2 Hin1 Hin2 Hc12) as (s & Hs & Hstd).
  pose proof (two_distinct_length cs c1 c2 Hin1 Hin2 Hc12) as Hn.
  set (m := fold_left Rplus cs 0 / INR (length cs)).
  assert (Hutil : forall e c, In e sc -> choice_rate e = Fin c ->
            utility_score e = Fin ((c - m) / s * 100)).
  { intros e c He Hc. destruct (Hrows e He) as (_ & _ & _ & Hu & _).
    rewrite Hu, Hcs, Hstd, series_mean_Fin, Hc by lia. fold m.
    unfold fsub. cbn [fneg fadd]. rewrite fdiv_Fin by lra. reflexivity. }
  assert (Hmono : forall x y, In x sc -> In y sc ->
            fltb (choice_rate x) (choice_rate y) = true ->
            fltb (utility_score x) (utility_score y) = true).
  { intros x y Hx Hy Hlt.
    destruct (Hfin x Hx) as (cx & Hcx). destruct (Hfin y Hy) as (cy & Hcy).
    rewrite (Hutil x cx Hx Hcx), (Hutil y cy Hy Hcy). rewrite Hcx, Hcy in Hlt.
    cbn in *. destruct (Rlt_dec cx cy) as [Hxy|]; [|discriminate].
    pose proof (standardise_monotone m s cx cy Hs Hxy).
    destruct (Rlt_dec ((cx - m) / s * 100) ((cy - m) / s * 100));
      [reflexivity | contradiction]. }
  exists m, s. split; [assumption|]. split; [|split].
  - intros e He. destruct (Hfin e He) as (c & Hc). exists c. auto.
  - exact Hmono.
  - apply StronglySorted_weaken
      with (R1 := fun x y => fltb (utility_score x) (utility_score y) = false).
    + intros x y Hx Hy Hge.
      destruct (fltb (choice_rate x) (choice_rate y)) eqn:E; [|reflexivity].
      rewrite (Hmono x y Hx Hy E) in Hge. discriminate.
    + pose proof (analyze_sorted_form design response sc a' Hrun) as Hform.
      fold obs in Hform.
      assert (Hnn : forall e, In e sc -> notna (utility_score e) = true).
      { intros e He. destruct (Hfin e He) as (c & Hc).
        now rewrite (Hutil e c He Hc). }
      set (scored := with_preference_pct (with_utility (benefit_stats obs))) in *.
      assert (Hnn' : forall e, In e scored -> notna (utility_score e) = true).
      { intros e He. apply Hnn. rewrite Hform. now apply sort_values_desc_In. }
      assert (Hall : filter (fun e => notna (utility_score e)) scored = scored).
      { clear - Hnn'. induction scored as [|h t IH]; [reflexivity|]. cbn.
        rewrite (Hnn' h (or_introl eq_refl)). f_equal. apply IH.
        intros e He. apply Hnn'. now right. }
      assert (Hnone : filter (fun e => is_nan (utility_score e)) scored = []).
      { apply filter_nil. intros e He. specialize (Hnn' e He).
        unfold notna in Hnn'. now destruct (is_nan (utility_score e)). }
      rewrite Hform. unfold sort_values_desc. rewrite Hall, Hnone, app_nil_r.
      apply sort_desc_sorted. apply Forall_forall. exact Hnn'.
Qed.
End Standardise.

Lemma xy_rates_differ sc a' :
  analyze design_xy response_a = Ok (sc, a') ->
  exists e1 e2, In e1 sc /\ In e2 sc /\ choice_rate e1 <> choice_rate e2.
Proof.
  intros Hrun.
  destruct (analyze_rows design_xy response_a sc a' Hrun) as (_ & Hk & _ & Hrows).
  change (group_keys _) with [py "X"; py "Y"] in Hk.
  assert (HX : In (py "X") (map benefit sc)).
  { eapply Permutation_in; [symmetry; exact Hk | now left]. }
  assert (HY : In (py "Y") (map benefit sc)).
  { eapply Permutation_in; [symmetry; exact Hk | right; now left]. }
  apply in_map_iff in HX as (eX & HbX & HeX).
  apply in_map_iff in HY as (eY & HbY & HeY).
  exists eX, eY. split; [assumption|]. split; [assumption|].
  destruct (Hrows eX HeX) as (HcX & HsX & HrX & _).
  destruct (Hrows eY HeY) as (HcY & HsY & HrY & _).
  rewrite HbX in HcX, HsX. rewrite HbY in HcY, HsY.
  change (sum_chosen _) with 1 in HcX. change (len _) with 1 in HsX.
  change (sum_chosen _) with 0 in HcY. change (len _) with 1 in HsY.
  rewrite HrX, HrY, HcX, HsX, HcY, HsY. unfold of_Z.
  rewrite !fdiv_Fin by lra. intros E. injection E as E.
  unfold Rdiv in E. rewrite Rinv_1 in E. lra.
Qed.

Lemma utility_ranks_by_choice_rate_witness :
  exists sc a',
    analyze design_xy response_a = Ok (sc, a') /\
    StronglySorted (fun x y => fltb (choice_rate x) (choice_rate y) = false) sc.
Proof.
  eexists. eexists. split; [reflexivity|].
  destruct (xy_rates_differ _ _ eq_refl) as (e1 & e2 & H1 & H2 & Hne).
  destruct (utility_ranks_by_choice_rate design_xy response_a _ _ e1 e2
              eq_refl H1 H2 Hne) as (_ & _ & _ & _ & _ & Hs).
  exact Hs.
Defined.

(* ------------------------------------------------------------------ *)
(** ** Sample responses *)

Section Unique.
Variable A : Type.
Variable eq_dec : forall x y : A, {x = y} + {x <> y}.

Lemma py_unique_In (l : list A) (y : A) : In y (py_unique eq_dec l) <-> In y l.
Proof.
  induction l as [|x t IH]; cbn; [tauto|]. rewrite filter_In, IH.
  destruct (eq_dec x y) as [->|Hne]; [tauto|]. intuition congruence.
Qed.

Lemma py_unique_NoDup (l : list A) : NoDup (py_unique eq_dec l).
Proof.
  induction l as [|x t IH]; cbn; constructor.
  - intros Hin. apply filter_In in Hin as [_ H].
    destruct (eq_dec x x); [discriminate | contradiction].
  - now apply NoDup_filter.
Qed.
End Unique.

Lemma random_choice_spec {A : Type} (a : list A) rng :
  a <> [] -> exists x rng', random_choice a rng = Ok (x, rng') /\ In x a.
Proof.
  intros Hne. destruct a as [|h t]; [contradiction|].
  unfold random_choice.
  destruct (randbelow_spec (length (h :: t)) rng) as (j & rng' & Hr & Hj);
    [cbn; lia|].
  unfold bind. rewrite Hr.
  destruct (nth_error (h :: t) j) as [x|] eqn:E.
  - exists x, rng'. split; [reflexivity|]. eapply nth_error_In; eassumption.
  - apply nth_error_None in E. lia.
Qed.

Lemma random_choice_inv {A : Type} (a : list A) rng x rng' :
  random_choice a rng = Ok (x, rng') -> In x a.
Proof.
  unfold random_choice. destruct a as [|h t]; [discriminate|]. intros H.
  apply bind_Ok in H as (j & r1 & _ & H).
  destruct (nth_error (h :: t) j) as [y|] eqn:E; [|discriminate].
  injection H as <- _. eapply nth_error_In; eassumption.
Qed.


Lemma Forall2_In_l {A B : Type} {P : A -> B -> Prop} {xs ys x} :
  Forall2 P xs ys -> In x xs -> exists y, In y ys /\ P x y.
Proof.
  induction 1 as [|x' y xs ys HP _ IH]; intros Hin; [contradiction|].
  destruct Hin as [->|Hin].
  - exists y. split; [now left | assumption].
  - destruct (IH Hin) as (y' & Hy & HP'). exists y'. split; [now right | assumption].
Qed.

Lemma NoDup_concat_keyed (rids : list Z) (per : list (list ResponseRow)) :
  Forall2 (fun rid rs => forall r, In r rs -> r_respondent_id r = rid) rids per ->
  NoDup rids ->
  (forall rs, In rs per -> NoDup (map response_key rs)) ->
  NoDup (map response_key (concat per)).
Proof.
  induction 1 as [|rid rs rids per Hrs HF IH]; intros Hnd Hin; [constructor|].
  cbn [concat]. rewrite map_app. inversion Hnd as [|? ? Hrid Hnd']; subst.
  apply NoDup_app.
  - apply Hin. now left.
  - apply IH; [assumption|]. intros rs' Hrs'. apply Hin. now right.
  - intros k Hk Hk'.
    apply in_map_iff in Hk as (r & <- & Hr).
    apply in_map_iff in Hk' as (r' & Heq & Hr').
    apply in_concat in Hr' as (rs' & Hrs' & Hr').
    destruct (Forall2_In_r HF Hrs') as (rid' & Hrid' & Hall).
    apply Hrid. rewrite <- (Hrs r Hr).
    unfold response_key in Heq. injection Heq as <- _.
    now rewrite (Hall r' Hr').
Qed.

(** What a returned sample holds, respondent by respondent. *)
Lemma sample_responses_shape (design : list DesignRow) rng responses rng' :
  generate_sample_responses design rng = Ok (responses, rng') ->
  exists per,
    responses = concat per /\
    Forall2 (fun resp_id rs =>
               Forall2 (fun q_id r =>
                          response_key r = (resp_id, q_id) /\
                          In (chosen_alternative r)
                             (map alternative
                                  (rows_of_question design resp_id q_id)))
                       (py_unique Z.eq_dec
                          (map question_id (rows_of_respondent design resp_id)))
                       rs)
            (py_unique Z.eq_dec (map respondent_id design)) per.
Proof.
  unfold generate_sample_responses. intros H.
  apply bind_Ok in H as (per & r1 & Hper & H). injection H as <- <-.
  exists per. split; [reflexivity|].
  revert Hper.
  apply (for_each_inv _
           (fun resp_id rs =>
              Forall2 (fun q_id r =>
                         response_key r = (resp_id, q_id) /\
                         In (chosen_alternative r)
                            (map alternative
                                 (rows_of_question design resp_id q_id)))
                      (py_unique Z.eq_dec
                         (map question_id (rows_of_respondent design resp_id)))
                      rs)).
  intros resp_id r2 rs r3 _.
  apply (for_each_inv _
           (fun q_id r =>
              response_key r = (resp_id, q_id) /\
              In (chosen_alternative r)
                 (map alternative (rows_of_question design resp_id q_id)))).
  intros q_id r4 r r5 _ Hr.
  apply bind_Ok in Hr as (c & r6 & Hc & Hr). injection Hr as <- <-.
  split; [reflexivity|]. cbn.
  apply random_choice_inv in Hc. now apply py_unique_In in Hc.
Qed.

Lemma rows_of_question_In (design : list DesignRow) (rid qid : Z) (d : DesignRow) :
  In d (rows_of_question design rid qid)
  <-> In d design /\ respondent_id d = rid /\ question_id d = qid.
Proof.
  unfold rows_of_question. rewrite filter_In, andb_true_iff, !Z.eqb_eq. tauto.
Qed.

Lemma rows_of_respondent_In (design : list DesignRow) (rid : Z) (d : DesignRow) :
  In d (rows_of_respondent design rid) <-> In d design /\ respondent_id d = rid.
Proof. unfold rows_of_respondent. rewrite filter_In, Z.eqb_eq. tauto. Qed.

Lemma key_match_iff (d : DesignRow) (r : ResponseRow) :
  key_match d r = true
  <-> response_key r = (respondent_id d, question_id d).
Proof.
  split; [apply key_match_response_key|].
  unfold response_key, key_match. intros H. injection H as -> ->.
  now rewrite !Z.eqb_refl.
Qed.

Lemma sample_responses_inv (design : list DesignRow) rng responses rng' :
  generate_sample_responses design rng = Ok (responses, rng') ->
  NoDup (map response_key responses) /\
  (forall d, In d design -> exists r, In r responses /\ key_match d r = true) /\
  (forall r, In r responses ->
     exists d, In d design /\ key_match d r = true /\
               alternative d = chosen_alternative r).
Proof.
  intros H. apply sample_responses_shape in H as (per & -> & HF).
  split; [|split].
  - apply NoDup_concat_keyed with (rids := py_unique Z.eq_dec (map respondent_id design)).
    + eapply Forall2_impl; [|exact HF]. intros rid rs Hrs r Hr.
      destruct (Forall2_In_r Hrs Hr) as (q & _ & Hk & _).
      unfold response_key in Hk. now injection Hk.
    + apply py_unique_NoDup.
    + intros rs Hrs. destruct (Forall2_In_r HF Hrs) as (rid & _ & Hq).
      assert (E : map response_key rs
                  = map (pair rid)
                        (py_unique Z.eq_dec
                           (map question_id (rows_of_respondent design rid)))).
      { clear - Hq. induction Hq as [|q r qs rs [Hk _] _ IH]; [reflexivity|].
        cbn. now rewrite Hk, IH. }
      rewrite E. apply Injective_map_NoDup; [|apply py_unique_NoDup].
      intros a b Hab. now injection Hab.
  - intros d Hd.
    assert (Hrid : In (respondent_id d)
                      (py_unique Z.eq_dec (map respondent_id design))).
    { apply py_unique_In. now apply in_map. }
    destruct (Forall2_In_l HF Hrid) as (rs & Hrs & Hq).
    assert (Hqid : In (question_id d)
                      (py_unique Z.eq_dec
                         (map question_id
                              (rows_of_respondent design (respondent_id d))))).
    { apply py_unique_In. apply in_map. now apply rows_of_respondent_In. }
    destruct (Forall2_In_l Hq Hqid) as (r & Hr & Hk & _).
    exists r. split.
    + apply in_concat. now exists rs.
    + now apply key_match_iff.
  - intros r Hr. apply in_concat in Hr as (rs & Hrs & Hr).
    destruct (Forall2_In_r HF Hrs) as (rid & _ & Hq).
    destruct (Forall2_In_r Hq Hr) as (qid & _ & Hk & Hc).
    apply in_map_iff in Hc as (d & Hd & Hin).
    apply rows_of_question_In in Hin as (Hin & Hr1 & Hr2).
    exists d. split; [assumption|]. split; [|assumption].
    apply key_match_iff. now rewrite Hr1, Hr2.
Qed.

Lemma sample_responses_total (design : list DesignRow) rng :
  exists responses rng', generate_sample_responses design rng = Ok (responses, rng').
Proof.
  unfold generate_sample_responses.
  destruct (for_each_Ok
              (fun resp_id =>
                 for_each (py_unique Z.eq_dec
                             (map question_id (rows_of_respondent design resp_id)))
                   (fun q_id =>
                      c <- random_choice
                             (py_unique cell_eq_dec
                                (map alternative
                                     (rows_of_question design resp_id q_id))) ;;
                      ret (mkResponseRow resp_id q_id c)))
              (fun _ _ => True)
              (py_unique Z.eq_dec (map respondent_id design))) with (rng := rng)
    as (per & r & H & _).
  - intros resp_id r1 _.
    destruct (for_each_Ok
                (fun q_id =>
                   c <- random_choice
                          (py_unique cell_eq_dec
                             (map alternative
                                  (rows_of_question design resp_id q_id))) ;;
                   ret (mkResponseRow resp_id q_id c))
                (fun _ _ => True)
                (py_unique Z.eq_dec
                   (map question_id (rows_of_respondent design resp_id))))
      with (rng := r1) as (rs & r2 & Hrs & _).
    + intros q_id r3 Hq. apply py_unique_In in Hq.
      apply in_map_iff in Hq as (d & Hqd & Hd).
      apply rows_of_respondent_In in Hd as (Hd & Hrd).
      destruct (random_choice_spec
                  (py_unique cell_eq_dec
                     (map alternative (rows_of_question design resp_id q_id))) r3)
        as (c & r4 & Hc & _).
      { intros E.
        assert (Hin : In (alternative d)
                         (py_unique cell_eq_dec
                            (map alternative
                                 (rows_of_question design resp_id q_id)))).
        { apply py_unique_In. apply in_map. now apply rows_of_question_In. }
        rewrite E in Hin. contradiction. }
      exists (mkResponseRow resp_id q_id c), r4. split; [|exact I].
      unfold bind. now rewrite Hc.
    + exists rs, r2. now split.
  - exists (concat per), r. unfold bind at 1. cbv zeta. now rewrite H.
Qed.

(** X15: generating sample responses never fails; it yields exactly one
    response row for every (respondent, question) pair of the design, and
    each row names an alternative the design lists for its pair. *)
Theorem sample_responses_cover_design (design : list DesignRow) (rng : Rng) :
  exists responses rng',
    generate_sample_responses design rng = Ok (responses, rng') /\
    NoDup (map response_key responses) /\
    (forall d, In d design -> exists r, In r responses /\ key_match d r = true) /\
    (forall r, In r responses ->
       exists d, In d design /\ key_match d r = true /\
                 alternative d = chosen_alternative r).
Proof.
  destruct (sample_responses_total design rng) as (responses & rng' & H).
  exists responses, rng'. split; [assumption|].
  eapply sample_responses_inv; eassumption.
Qed.

Lemma merge_rows_matched (design : list DesignRow) (response : list ResponseRow)
    (d : DesignRow) (r : ResponseRow) :
  In d design -> In r response -> key_match d r = true ->
  In (mkMergedRow d (chosen_alternative r)
                  (if cell_eqb (alternative d) (chosen_alternative r)
                   then 1 else 0))
     (merge_rows design response).
Proof.
  intros Hd Hr Hk. unfold merge_rows. apply in_map_iff.
  exists (d, chosen_alternative r). split; [reflexivity|].
  unfold left_merge. apply in_flat_map. exists d. split; [assumption|].
  assert (Hin : In r (filter (key_match d) response)) by (now apply filter_In).
  destruct (filter (key_match d) response) as [|r0 rs]; [contradiction|].
  apply in_map_iff. now exists r.
Qed.

(** At most one flagged row per pair, for a design with one row per label
    and responses with one row per pair. *)
Lemma chosen_rows_at_most_one (design : list DesignRow)
    (response : list ResponseRow) (rid qid : Z) :
  NoDup (map row_key design) -> NoDup (map response_key response) ->
  (length (chosen_rows rid qid (merge_rows design response)) <= 1)%nat.
Proof.
  intros Hdes Hresp. unfold chosen_rows.
  apply filter_at_most_one with (f := fun m => row_key (m_design m)).
  - now rewrite <- map_map, (merge_rows_design design response Hresp).
  - intros x y Hx Hy Px Py.
    apply andb_true_iff in Px as [Px Cx]. apply andb_true_iff in Px as [Rx Qx].
    apply andb_true_iff in Py as [Py Cy]. apply andb_true_iff in Py as [Ry Qy].
    apply Z.eqb_eq in Rx, Qx, Cx, Ry, Qy, Cy.
    destruct (merge_rows_inv design response x Hx) as (_ & _ & Hcx).
    destruct (merge_rows_inv design response y Hy) as (_ & _ & Hcy).
    destruct (Hcx Cx) as (rx & Hrx & Kx & Ax).
    destruct (Hcy Cy) as (ry & Hry & Ky & Ay).
    assert (rx = ry).
    { apply (NoDup_map_eq response_key response); try assumption.
      rewrite (key_match_response_key _ _ Kx), (key_match_response_key _ _ Ky).
      congruence. }
    subst ry. unfold row_key. congruence.
Qed.

(** X16: with sample responses generated from it, a design that has one
    row per (respondent, question, label) and no missing label gets exactly
    one chosen alternative in every one of its questions. *)
Theorem sample_responses_one_choice (design : list DesignRow) rng responses rng' :
  NoDup (map row_key design) ->
  (forall d, In d design -> alternative d <> None) ->
  generate_sample_responses design rng = Ok (responses, rng') ->
  forall d, In d design ->
    length (chosen_rows (respondent_id d) (question_id d)
                        (merge_rows design responses)) = 1%nat.
Proof.
  intros Hkeys Hlab Hgen d Hd.
  destruct (sample_responses_inv design rng responses rng' Hgen)
    as (Hnd & Hcover & Hfrom).
  pose proof (chosen_rows_at_most_one design responses (respondent_id d)
                (question_id d) Hkeys Hnd) as Hle.
  destruct (Hcover d Hd) as (r & Hr & Hk).
  destruct (Hfrom r Hr) as (d0 & Hd0 & Hk0 & Halt).
  pose proof (merge_rows_matched design responses d0 r Hd0 Hr Hk0) as Hin.
  assert (Hflag : cell_eqb (alternative d0) (chosen_alternative r) = true).
  { rewrite <- Halt. specialize (Hlab d0 Hd0).
    destruct (alternative d0) as [x|]; [|contradiction]. cbn. apply str_eqb_refl. }
  rewrite Hflag in Hin.
  assert (Hsel : In (mkMergedRow d0 (chosen_alternative r) 1)
                    (chosen_rows (respondent_id d) (question_id d)
                                 (merge_rows design responses))).
  { unfold chosen_rows. apply filter_In. split; [assumption|]. cbn.
    apply key_match_iff in Hk. apply key_match_iff in Hk0.
    rewrite Hk in Hk0. injection Hk0 as -> ->. now rewrite !Z.eqb_refl. }
  destruct (chosen_rows (respondent_id d) (question_id d)
                        (merge_rows design responses)) as [|m [|m' ms]];
    cbn in *; [contradiction | reflexivity | lia].
Qed.

Lemma sample_responses_one_choice_witness :
  exists responses rng',
    generate_sample_responses design_xy [1]%nat = Ok (responses, rng') /\
    forall d, In d design_xy ->
      length (chosen_rows (respondent_id d) (question_id d)
                          (merge_rows design_xy responses)) = 1%nat.
Proof.
  eexists. eexists. split; [reflexivity|].
  apply (sample_responses_one_choice design_xy [1]%nat _ []).
  - cbn. repeat constructor; cbn; intuition discriminate.
  - intros d [<-|[<-|[]]]; discriminate.
  - reflexivity.
Defined.

Example sample_responses_run :
  generate_sample_responses design_xy [1]%nat
  = Ok ([mkResponseRow 1 1 (Some (py "B"))], []).
Proof. reflexivity. Qed.

(* ------------------------------------------------------------------ *)
(** ** Saving the analysis *)








(* ------------------------------------------------------------------ *)
(** ** The benefit list of the designer page *)

Example parse_benefits_run :
  parse_benefits (py "  Meal Stipend " ++ nl ++ nl ++ py "Pet Insurance" ++ nl
                  ++ py "   ")
  = [py "Meal Stipend"; py "Pet Insurance"].
Proof. reflexivity. Qed.

Lemma split_on_nonempty (sep : N) (s : str) : split_on sep s <> [].
Proof.
  induction s as [|c t IH]; cbn; [discriminate|].
  destruct (N.eqb c sep); [discriminate|].
  destruct (split_on sep t); discriminate.
Qed.

Lemma split_on_no_sep (sep : N) (p : str) :
  ~ In sep p -> split_on sep p = [p].
Proof.
  induction p as [|c t IH]; intros H; [reflexivity|]. cbn.
  destruct (N.eqb_spec c sep) as [->|_]; [exfalso; apply H; now left|].
  rewrite IH; [reflexivity|]. intros Hin. apply H. now right.
Qed.

Lemma split_on_app (sep : N) (p rest : str) :
  ~ In sep p -> split_on sep (p ++ sep :: rest) = p :: split_on sep rest.
Proof.
  induction p as [|c t IH]; intros H; cbn.
  - now rewrite N.eqb_refl.
  - destruct (N.eqb_spec c sep) as [->|_]; [exfalso; apply H; now left|].
    rewrite IH; [reflexivity|]. intros Hin. apply H. now right.
Qed.

(** Splitting undoes joining, for parts that do not hold the separator. *)
Lemma split_on_join (sep : N) (names : list str) :
  names <> [] -> (forall b, In b names -> ~ In sep b) ->
  split_on sep (join [sep] names) = names.
Proof.
  destruct names as [|p ps]; [contradiction|]. intros _.
  revert p. induction ps as [|q ps IH]; intros p H; cbn.
  - rewrite app_nil_r. apply split_on_no_sep. apply H. now left.
  - rewrite split_on_app by (apply H; now left). f_equal.
    apply (IH q). intros b Hb. apply H. now right.
Qed.

Lemma split_on_pieces (sep : N) (s : str) (b : str) :
  In b (split_on sep s) -> ~ In sep b.
Proof.
  revert b. induction s as [|c t IH]; intros b Hb; cbn in Hb.
  - destruct Hb as [<-|[]]. intros [].
  - destruct (N.eqb_spec c sep) as [->|Hne].
    + destruct Hb as [<-|Hb]; [intros [] | now apply IH].
    + destruct (split_on sep t) as [|h r] eqn:E.
      * destruct Hb as [<-|[]]. intros [H|[]]. congruence.
      * destruct Hb as [<-|Hb].
        -- intros [H|H]; [congruence|]. apply (IH h); [now left | assumption].
        -- apply IH. now right.
Qed.

Lemma lstrip_In (s : str) (c : N) : In c (lstrip s) -> In c s.
Proof.
  induction s as [|x t IH]; cbn; [tauto|].
  destruct (is_space x); [intros H; right; now apply IH | tauto].
Qed.

Lemma strip_In (s : str) (c : N) : In c (strip s) -> In c s.
Proof.
  unfold strip, rstrip. intros H. apply in_rev in H. apply lstrip_In in H.
  apply in_rev in H. now apply lstrip_In.
Qed.

Lemma lstrip_head (s : str) :
  lstrip s = [] \/ exists c t, lstrip s = c :: t /\ is_space c = false.
Proof.
  induction s as [|x t IH]; cbn; [now left|].
  destruct (is_space x) eqn:E; [exact IH|]. right. now exists x, t.
Qed.

Lemma lstrip_fixed (c : N) (t : str) :
  is_space c = false -> lstrip (c :: t) = c :: t.
Proof. intros H. cbn. now rewrite H. Qed.

Lemma lstrip_app_nonspace (l : str) (c : N) :
  is_space c = false -> exists l', lstrip (l ++ [c]) = l' ++ [c].
Proof.
  intros Hc. induction l as [|x l IH]; cbn.
  - rewrite Hc. now exists [].
  - destruct (is_space x); [exact IH|]. now exists (x :: l).
Qed.

Lemma rstrip_keeps_head (c : N) (t : str) :
  is_space c = false -> exists t', rstrip (c :: t) = c :: t'.
Proof.
  intros Hc. unfold rstrip. cbn [rev].
  destruct (lstrip_app_nonspace (rev t) c Hc) as (l' & ->).
  rewrite rev_app_distr. cbn. now exists (rev l').
Qed.

Lemma lstrip_idem (s : str) : lstrip (lstrip s) = lstrip s.
Proof.
  destruct (lstrip_head s) as [->|(c & t & -> & Hc)]; [reflexivity|].
  now apply lstrip_fixed.
Qed.

Lemma strip_idem (s : str) : strip (strip s) = strip s.
Proof.
  unfold strip.
  assert (Hl : lstrip (rstrip (lstrip s)) = rstrip (lstrip s)).
  { destruct (lstrip_head s) as [->|(c & t & -> & Hc)]; [reflexivity|].
    destruct (rstrip_keeps_head c t Hc) as (t' & ->). now apply lstrip_fixed. }
  rewrite Hl. unfold rstrip. now rewrite rev_involutive, lstrip_idem.
Qed.

(** X19: every name read from the text area is non-empty, has no
    surrounding white space and no line break; a list of such names, put in
    the text area one per line, is read back unchanged, duplicates
    included; so reading is idempotent. *)
Theorem benefits_text_round_trip :
  (forall text b, In b (parse_benefits text) -> clean_name b) /\
  (forall names, (forall b, In b names -> clean_name b) ->
                 parse_benefits (join nl names) = names) /\
  (forall text, parse_benefits (join nl (parse_benefits text))
                = parse_benefits text).
Proof.
  assert (Hclean : forall text b, In b (parse_benefits text) -> clean_name b).
  { intros text b Hb. unfold parse_benefits in Hb.
    apply in_flat_map in Hb as (piece & Hpiece & Hb).
    destruct (strip piece) as [|c t] eqn:E; [contradiction|].
    destruct Hb as [<-|[]]. split; [discriminate|]. split.
    - rewrite <- E. apply strip_idem.
    - intros Hin. rewrite <- E in Hin. apply strip_In in Hin.
      now apply (split_on_pieces 10%N text piece). }
  assert (Hback : forall names, (forall b, In b names -> clean_name b) ->
                                parse_benefits (join nl names) = names).
  { intros names Hnames. unfold parse_benefits.
    destruct names as [|p ps]; [reflexivity|].
    unfold nl. rewrite split_on_join;
      [|discriminate | intros b Hb; now destruct (Hnames b Hb) as (_ & _ & H)].
    induction (p :: ps) as [|b bs IH]; [reflexivity|]. cbn [flat_map].
    destruct (Hnames b (or_introl eq_refl)) as (Hne & Hs & _).
    rewrite Hs. destruct b as [|c t]; [contradiction|].
    change ((c :: t) :: flat_map (fun b => match strip b with
                                           | [] => []
                                           | name => [name]
                                           end) bs
            = (c :: t) :: bs).
    f_equal. apply IH. intros b' Hb'. apply Hnames. now right. }
  split; [exact Hclean|]. split; [exact Hback|].
  intros text. apply Hback. intros b Hb. now apply (Hclean text).
Qed.

Lemma benefits_text_round_trip_witness :
  clean_name (py "Meal Stipend") /\
  parse_benefits (join nl [py "Meal Stipend"; py "Meal Stipend"])
  = [py "Meal Stipend"; py "Meal Stipend"].
Proof.
  assert (Hc : clean_name (py "Meal Stipend")).
  { apply (proj1 benefits_text_round_trip (py " Meal Stipend ")). now left. }
  split; [exact Hc|].
  apply (proj1 (proj2 benefits_text_round_trip)).
  intros b [<-|[<-|[]]]; exact Hc.
Defined.

(* ------------------------------------------------------------------ *)
(** ** Instances *)

Lemma forms_show_every_option_witness :
  occurs (py "- **Option A**: X + Y" ++ nl)
         (fold_left append_question
            [mkQuestion 1 [mkAlternative (py "A") [py "X"; py "Y"]]]
            (form_header
               (mkSurvey 7 [mkQuestion 1 [mkAlternative (py "A")
                                                        [py "X"; py "Y"]]]))).
Proof.
  pose proof (proj2 (forms_show_every_option
                       [mkSurvey 7 [mkQuestion 1 [mkAlternative (py "A")
                                                                [py "X"; py "Y"]]]]))
    as H.
  apply Forall2_cons_iff in H as [(_ & _ & H) _].
  apply (H (mkQuestion 1 [mkAlternative (py "A") [py "X"; py "Y"]])
           (mkAlternative (py "A") [py "X"; py "Y"])); now left.
Defined.

Lemma sample_responses_cover_design_witness :
  exists responses rng',
    generate_sample_responses design_xy [1]%nat = Ok (responses, rng') /\
    NoDup (map response_key responses) /\
    (forall d, In d design_xy -> exists r, In r responses /\ key_match d r = true) /\
    (forall r, In r responses ->
       exists d, In d design_xy /\ key_match d r = true /\
                 alternative d = chosen_alternative r).
Proof. exact (sample_responses_cover_design design_xy [1]%nat). Defined.

